(** * Stake Engine Client: the request layer of [client.ts]

    A shallow embedding of the high-level client (the [StakeEngineClient]
    class with its [post] and [get] methods, [getUrlParams], and the seven
    operations [authenticate], [play], [endRound], [endEvent],
    [forceResult], [getBalance], [replay]) and of the export lists of
    [client.ts] and [index.ts].

    Modelling choices.
    - A TypeScript [string | undefined] option field, and the
      [string | null] result of [URLSearchParams.get], are [option string].
    - Values whose shape the code does not fix (parsed response bodies,
      request bodies) are JavaScript values, type [value].
    - A JavaScript number is an IEEE 754 binary64 value: a primitive
      [float], whose product and quotient round as the hardware does
      ([PrimFloat], specified by [SpecFloat]).  The amount of [play], its
      product with the multiplier and the event index of [endEvent] are
      such numbers: they can be fractions, infinite or NaN.
    - The host is a browser page: [window.location.search] exists.
    - The body of an [async] function is a computation reading the host
      (the page URL and the [fetcher]) and threading a log of the calls
      made to [fetcher] and to [console.error]; it completes with a value
      or with a thrown exception.  Calling the function gives a promise,
      which the completion of the body settles ([async], [invoke]).
    - [fetcher] (file [fetcher.ts]) is not among the sources: it is a
      component of the host, and a request is a call to it. *)

From Stdlib Require Import String Ascii List Bool ZArith NArith Lia.
From Stdlib Require Import QArith Qround Qpower Lqa.
From Stdlib Require Import DecimalString DecimalZ DecimalPos.
From Stdlib Require Import Floats.
Import ListNotations.

Local Open Scope string_scope.

(** The first value filed under a key, in a list of key/value pairs. *)
Fixpoint lookup {V : Type} (key : string) (pairs : list (string * V)) : option V :=
  match pairs with
  | [] => None
  | (k, v) :: rest => if k =? key then Some v else lookup key rest
  end.

(** ** Binary64 numbers *)

(** What a primitive [float] holds, read through [Prim2SF]: a signed zero,
    a signed infinity, NaN, or a finite value: a sign, a mantissa and an
    exponent. *)
Module IEEE754.

(** The absolute value of the finite number of mantissa [m] and exponent
    [e]: m * 2^e. *)
Definition magnitude (m : positive) (e : Z) : Q := inject_Z (Zpos m) * 2 ^ e.

(** The value of a number, as a rational; the infinities and NaN have
    none. *)
Definition exact (x : float) : option Q :=
  match Prim2SF x with
  | S754_zero _ => Some 0
  | S754_finite s m e => Some (if s then - magnitude m e else magnitude m e)
  | S754_infinity _ | S754_nan => None
  end.

(** The number [x] is the rational [q], exactly. *)
Definition exactly (x : float) (q : Q) : Prop :=
  match exact x with
  | Some v => v == q
  | None => False
  end.

(** The integer [n] is exactly representable: some number is [n]. *)
Definition representable (n : Z) : Prop :=
  exists y : float, exactly y (inject_Z n).

(** The sign of a number: set for the negative values, -0 and -Infinity. *)
Definition sign_bit (x : float) : bool :=
  match Prim2SF x with
  | S754_zero s | S754_infinity s | S754_finite s _ _ => s
  | S754_nan => false
  end.

(** The result [r] of an operation is a number of sign [s]. *)
Definition signed (s : bool) (r : spec_float) : Prop :=
  match r with
  | S754_nan => False
  | S754_zero s' | S754_infinity s' | S754_finite s' _ _ => s' = s
  end.

End IEEE754.

Import IEEE754.

(** ** JavaScript values *)

Module JS.

#[local] Set Warnings "-register-all".

Inductive value : Type :=
| VUndefined
| VNull
| VBool (b : bool)
| VNumber (x : float)
| VString (s : string)
| VArray (items : list value)
| VObject (fields : list (string * value)).

(** [Error] carries the argument of [new Error(...)] as it is given; the
    constructor makes a string of it. *)
Inductive Exception : Type :=
| Error (message : value)     (* new Error(message) *)
| TypeError                   (* property read on null or undefined *)
| SyntaxError                 (* response.json() on a body that is not JSON *)
| NetworkError (reason : string).

(** ToBoolean: [undefined], [null], [false], [+0], [-0], [NaN] and the
    empty string are falsy; every array and object is truthy. *)
Definition truthy (v : value) : bool :=
  match v with
  | VUndefined | VNull => false
  | VBool b => b
  | VNumber x => negb (PrimFloat.is_nan x || PrimFloat.is_zero x)
  | VString s => negb (s =? "")
  | VArray _ | VObject _ => true
  end.

(** [a || b] *)
Definition or_value (a b : value) : value := if truthy a then a else b.

(** [v.key] on a value that is neither [null] nor [undefined]: an own
    property of an object, [undefined] otherwise (none of the keys read by
    the client is a built-in property of a primitive or of an array). *)
Definition prop (key : string) (v : value) : value :=
  match v with
  | VObject fields =>
      match lookup key fields with Some x => x | None => VUndefined end
  | _ => VUndefined
  end.

(** ToBoolean on a [string | undefined] or [string | null]: a non-empty
    string. *)
Definition present (o : option string) : bool :=
  match o with
  | Some s => negb (s =? "")
  | None => false
  end.

(** [a || b] where both sides are optional strings. *)
Definition or_opt (a b : option string) : option string :=
  if present a then a else b.

(** [a || d] where [d] is a string. *)
Definition or_str (a : option string) (d : string) : string :=
  match a with
  | Some s => if s =? "" then d else s
  | None => d
  end.

(** What [if (!x) throw ...] leaves of [x]: a non-empty string. *)
Definition narrow (o : option string) : option string :=
  if present o then o else None.

Definition MAX_SAFE_INTEGER : Z := 2 ^ 53 - 1.

(** *** Number::toString

    The string of a number, as a template literal [`${x}`] and [String(x)]
    give it (ECMA-262, Number::toString with radix 10). *)

(** The decimal numeral of a natural number. *)
Definition decimal (n : Z) : string :=
  NilZero.string_of_uint (N.to_uint (Z.to_N n)).

Fixpoint zeros (n : nat) : string :=
  match n with
  | O => ""
  | S n => String "0" (zeros n)
  end.

(** The decimal exponent of a positive value [v]: the [n] with
    10^(n-1) <= v < 10^n.  Below 1 it is found going down from 0; the
    smallest binary64 value is above 10^-324. *)
Fixpoint exponent_below (fuel : nat) (v : Q) (n : Z) : Z :=
  match fuel with
  | O => n
  | S fuel => if Qle_bool (10 ^ (n - 1)) v then n else exponent_below fuel v (n - 1)
  end.

Definition decimal_exponent (v : Q) : Z :=
  if Qle_bool 1 v then Z.of_nat (String.length (decimal (Qfloor v)))
  else exponent_below 400 v 0.

(** The real [c] reads back as the number of mantissa [m] and exponent [e]:
    it lies between the midpoints to the neighbouring numbers, the
    midpoints themselves included when [m] is even (ties go to the even
    mantissa).  The neighbour below a power of two is at half the
    distance. *)
Definition reads_back (m : positive) (e : Z) (c : Q) : bool :=
  let v := magnitude m e in
  let half := 2 ^ (e - 1) in
  let lo := v - (if (Zpos m =? 2 ^ 52)%Z && (-1074 <? e)%Z then half / 2 else half) in
  let hi := v + half in
  if Z.even (Zpos m) then Qle_bool lo c && Qle_bool c hi
  else negb (Qle_bool c lo) && negb (Qle_bool hi c).

(** The shortest digits: the least [k] from the given one and an integer
    [s] such that s * 10^(n-k) reads back as the number, the nearest such
    [s] when there are two, the even one when they are as near.  Seventeen
    digits always read back. *)
Fixpoint shortest (fuel : nat) (m : positive) (e : Z) (n k : Z) : Z * Z :=
  let v := magnitude m e in
  let unit := 10 ^ (n - k) in
  let s := Qfloor (v / unit) in
  match fuel with
  | O => (s, k)
  | S fuel =>
      let low := inject_Z s * unit in
      let high := inject_Z (s + 1) * unit in
      match reads_back m e low, reads_back m e high with
      | true, true =>
          match Qcompare (v - low) (high - v) with
          | Lt => (s, k)
          | Gt => ((s + 1)%Z, k)
          | Eq => ((if Z.even s then s else s + 1)%Z, k)
          end
      | true, false => (s, k)
      | false, true => ((s + 1)%Z, k)
      | false, false => shortest fuel m e n (k + 1)
      end
  end.

(** The digits laid out: as an integer with zeros appended, with a decimal
    point inside, with zeros after "0.", or in exponent notation when the
    decimal exponent is above 21 or below -5. *)
Definition layout (digits : string) (n : Z) : string :=
  let k := Z.of_nat (String.length digits) in
  if (k <=? n)%Z && (n <=? 21)%Z then
    digits ++ zeros (Z.to_nat (n - k))
  else if (0 <? n)%Z && (n <=? 21)%Z then
    substring 0 (Z.to_nat n) digits ++ "."
    ++ substring (Z.to_nat n) (Z.to_nat (k - n)) digits
  else if (-6 <? n)%Z && (n <=? 0)%Z then
    "0." ++ zeros (Z.to_nat (- n)) ++ digits
  else
    (if (k =? 1)%Z then digits
     else substring 0 1 digits ++ "." ++ substring 1 (Z.to_nat (k - 1)) digits)
    ++ "e" ++ (if (n - 1 <? 0)%Z then "-" else "+") ++ decimal (Z.abs (n - 1)).

(** The string of a positive finite number, from its shortest digits. *)
Definition shortest_toString (m : positive) (e : Z) : string :=
  let n := decimal_exponent (magnitude m e) in
  let '(s, k) := shortest 17 m e n 1 in
  if (s =? 10 ^ k)%Z then layout "1" (n + 1) else layout (decimal s) n.

(** The integer a positive value is, when it is one of at most 2^53 - 1. *)
Definition safe_integer (v : Q) : option Z :=
  let n := Qfloor v in
  if Qeq_bool (inject_Z n) v && (n <=? MAX_SAFE_INTEGER)%Z then Some n else None.

(** An integer of at most 2^53 - 1 is the only real that reads back as it
    among those of as few digits: its shortest digits are its own numeral
    without the final zeros, which the layout appends again.  Its string
    is taken from the numeral at once. *)
Definition finite_toString (m : positive) (e : Z) : string :=
  match safe_integer (magnitude m e) with
  | Some n => decimal n
  | None => shortest_toString m e
  end.

Definition toString (x : float) : string :=
  match Prim2SF x with
  | S754_nan => "NaN"
  | S754_zero _ => "0"
  | S754_infinity s => (if s then "-" else "") ++ "Infinity"
  | S754_finite s m e => (if s then "-" else "") ++ finite_toString m e
  end.

End JS.

Import JS.

(** ** The host: page URL and fetcher *)

(** [new URLSearchParams(window.location.search)]: the decoded name/value
    pairs of the query string, in order. *)
Definition URLSearchParams : Type := list (string * string).

(** [urlParams.get(name)]: the first value of that name, or [null]. *)
Definition get_param (name : string) (params : URLSearchParams) : option string :=
  lookup name params.

Inductive Method : Type := POST | GET.

Record FetcherOptions : Type := mkFetcherOptions {
  method : Method;
  endpoint : string;
  variables : option value
}.

Record Response : Type := mkResponse {
  status : N;
  statusText : string;
  body : option value        (* [None]: the body is not JSON *)
}.

Inductive FetchOutcome : Type :=
| Rejected (e : Exception)
| Fulfilled (r : Response).

Record Host : Type := mkHost {
  search : URLSearchParams;
  network : FetcherOptions -> FetchOutcome
}.

Record Log : Type := mkLog {
  requests : list FetcherOptions;
  console : list (list value)
}.

Definition empty_log : Log := {| requests := []; console := [] |}.

(** ** Asynchronous computations *)

Inductive Completion (A : Type) : Type :=
| Return (a : A)
| Throw (e : Exception).

Arguments Return {A} a.
Arguments Throw {A} e.

Definition Async (A : Type) : Type := Host -> Log -> Completion A * Log.

Definition ret {A} (a : A) : Async A := fun _ l => (Return a, l).

Definition throw {A} (e : Exception) : Async A := fun _ l => (Throw e, l).

Definition bind {A B} (c : Async A) (k : A -> Async B) : Async B :=
  fun h l =>
    match c h l with
    | (Return a, l') => k a h l'
    | (Throw e, l') => (Throw e, l')
    end.

(** [c.catch(() => a)] *)
Definition catch {A} (c : Async A) (a : A) : Async A :=
  fun h l =>
    match c h l with
    | (Return x, l') => (Return x, l')
    | (Throw _, l') => (Return a, l')
    end.

Declare Scope async_scope.
Delimit Scope async_scope with async.

Notation "x <- c ;; k" := (bind c (fun x => k))
  (at level 61, c at next level, right associativity) : async_scope.
Notation "c ;;; k" := (bind c (fun _ => k))
  (at level 61, right associativity) : async_scope.

Local Open Scope async_scope.

Definition ask_search : Async URLSearchParams := fun h l => (Return (search h), l).

(** One call of [fetcher]: the call is logged, the host answers. *)
Definition fetcher (o : FetcherOptions) : Async Response :=
  fun h l =>
    let l' := {| requests := requests l ++ [o]; console := console l |} in
    match network h o with
    | Rejected e => (Throw e, l')
    | Fulfilled r => (Return r, l')
    end.

(** [response.json()] *)
Definition json (r : Response) : Async value :=
  match body r with
  | Some v => ret v
  | None => throw SyntaxError
  end.

(** [console.error(...args)] *)
Definition console_error (args : list value) : Async unit :=
  fun _ l => (Return tt, {| requests := requests l; console := console l ++ [args] |}).

(** [v.key] as an expression: reading a property of [null] or [undefined]
    throws. *)
Definition read_prop (key : string) (v : value) : Async value :=
  match v with
  | VUndefined | VNull => throw TypeError
  | _ => ret (prop key v)
  end.

(** *** Promises *)

(** Calling an [async] function does not throw: the call returns a
    promise, which is fulfilled with the value the body returns or
    rejected with the exception the body throws.  The model runs the body
    to its end and gives the promise in the state it settles in. *)
Inductive Promise (A : Type) : Type :=
| FulfilledWith (a : A)
| RejectedWith (e : Exception).

Arguments FulfilledWith {A} a.
Arguments RejectedWith {A} e.

(** [async (...) => { body }], called. *)
Definition async {A} (body : Async A) : Async (Promise A) :=
  fun h l =>
    match body h l with
    | (Return a, l') => (Return (FulfilledWith a), l')
    | (Throw e, l') => (Return (RejectedWith e), l')
    end.

(** ** client.ts *)

(** Modelled from the spec: [constants.ts] is not among the sources; the
    API multiplier is the fixed constant 1,000,000 (one currency unit is
    1000000 in API format). *)
Definition API_AMOUNT_MULTIPLIER : float := 1000000.

(** *** class StakeEngineClient *)

Module StakeEngineClient.

Definition post (rgsUrl url : string) (vars : option value) : Async value :=
  response <- fetcher {| method := POST;
                         variables := vars;
                         endpoint := "https://" ++ rgsUrl ++ url |} ;;
  if negb (status response =? 200)%N then
    errorData <- catch (json response) (VObject []) ;;
    message <- read_prop "message" errorData ;;
    console_error [VString "RGS API error:"; message] ;;;
    throw (Error (or_value message
      (VString ("RGS API error: "
                ++ NilZero.string_of_uint (N.to_uint (status response))
                ++ " " ++ statusText response))))
  else
    data <- json response ;;
    ret data.

Definition get (rgsUrl url : string) : Async value :=
  response <- fetcher {| method := GET;
                         variables := None;
                         endpoint := "https://" ++ rgsUrl ++ url |} ;;
  if negb (status response =? 200)%N then
    errorData <- catch (json response) (VObject []) ;;
    message <- read_prop "message" errorData ;;
    console_error [VString "RGS API error:"; message] ;;;
    throw (Error (or_value message
      (VString ("RGS API error: "
                ++ NilZero.string_of_uint (N.to_uint (status response))
                ++ " " ++ statusText response))))
  else
    data <- json response ;;
    ret data.

End StakeEngineClient.

(** [export const stakeEngineClient = new StakeEngineClient()]: the class
    has no fields, the instance is its two methods. *)
Module stakeEngineClient := StakeEngineClient.

(** *** getUrlParams *)

Record UrlParams : Type := mkUrlParams {
  sessionID : option string;
  rgsUrl : option string;
  language : string;
  currency : string
}.

Definition getUrlParams : Async UrlParams :=
  urlParams <- ask_search ;;
  ret {| sessionID := get_param "sessionID" urlParams;
         rgsUrl := get_param "rgs_url" urlParams;
         language := or_str (get_param "lang" urlParams) "en";
         currency := or_str (get_param "currency" urlParams) "USD" |}.

Definition sessionID_required : Exception :=
  Error (VString "sessionID is required (provide in options or URL param)").

Definition rgsUrl_required : Exception :=
  Error (VString "rgsUrl is required (provide in options or rgs_url URL param)").

(** [options?.field] *)
Definition opt_field {O : Type} (field : O -> option string) (options : option O)
  : option string :=
  match options with
  | Some o => field o
  | None => None
  end.

(** *** authenticate *)

Record AuthenticateOptions : Type := mkAuthenticateOptions {
  auth_sessionID : option string;
  auth_rgsUrl : option string;
  auth_language : option string
}.

Definition authenticate (options : option AuthenticateOptions) : Async value :=
  urlParams <- getUrlParams ;;
  let sessionID := or_opt (opt_field auth_sessionID options) (sessionID urlParams) in
  let rgsUrl := or_opt (opt_field auth_rgsUrl options) (rgsUrl urlParams) in
  let language := or_str (opt_field auth_language options) (language urlParams) in
  match narrow sessionID with
  | None => throw sessionID_required
  | Some sessionID =>
  match narrow rgsUrl with
  | None => throw rgsUrl_required
  | Some rgsUrl =>
      stakeEngineClient.post rgsUrl "/wallet/authenticate"
        (Some (VObject [("sessionID", VString sessionID);
                        ("language", VString language)]))
  end end.

(** *** play *)

Record PlayOptions : Type := mkPlayOptions {
  play_amount : float;
  play_mode : string;
  play_currency : option string;
  play_sessionID : option string;
  play_rgsUrl : option string
}.

Definition play (options : PlayOptions) : Async value :=
  urlParams <- getUrlParams ;;
  let sessionID := or_opt (play_sessionID options) (sessionID urlParams) in
  let rgsUrl := or_opt (play_rgsUrl options) (rgsUrl urlParams) in
  let currency := or_str (play_currency options) (currency urlParams) in
  match narrow sessionID with
  | None => throw sessionID_required
  | Some sessionID =>
  match narrow rgsUrl with
  | None => throw rgsUrl_required
  | Some rgsUrl =>
      stakeEngineClient.post rgsUrl "/wallet/play"
        (Some (VObject [("mode", VString (play_mode options));
                        ("currency", VString currency);
                        ("sessionID", VString sessionID);
                        ("amount",
                         VNumber (play_amount options * API_AMOUNT_MULTIPLIER)%float)]))
  end end.

(** *** endRound *)

Record EndRoundOptions : Type := mkEndRoundOptions {
  endRound_sessionID : option string;
  endRound_rgsUrl : option string
}.

Definition endRound (options : option EndRoundOptions) : Async value :=
  urlParams <- getUrlParams ;;
  let sessionID := or_opt (opt_field endRound_sessionID options) (sessionID urlParams) in
  let rgsUrl := or_opt (opt_field endRound_rgsUrl options) (rgsUrl urlParams) in
  match narrow sessionID with
  | None => throw sessionID_required
  | Some sessionID =>
  match narrow rgsUrl with
  | None => throw rgsUrl_required
  | Some rgsUrl =>
      stakeEngineClient.post rgsUrl "/wallet/end-round"
        (Some (VObject [("sessionID", VString sessionID)]))
  end end.

(** *** endEvent *)

Record EndEventOptions : Type := mkEndEventOptions {
  eventIndex : float;
  endEvent_sessionID : option string;
  endEvent_rgsUrl : option string
}.

Definition endEvent (options : EndEventOptions) : Async value :=
  urlParams <- getUrlParams ;;
  let sessionID := or_opt (endEvent_sessionID options) (sessionID urlParams) in
  let rgsUrl := or_opt (endEvent_rgsUrl options) (rgsUrl urlParams) in
  match narrow sessionID with
  | None => throw sessionID_required
  | Some sessionID =>
  match narrow rgsUrl with
  | None => throw rgsUrl_required
  | Some rgsUrl =>
      stakeEngineClient.post rgsUrl "/bet/event"
        (Some (VObject [("sessionID", VString sessionID);
                        ("event", VString (toString (eventIndex options)))]))
  end end.

(** *** forceResult *)

Record ForceResultOptions : Type := mkForceResultOptions {
  forceResult_mode : string;
  forceResult_search : value;     (* the search object, forwarded as it is *)
  forceResult_rgsUrl : option string
}.

Definition forceResult (options : ForceResultOptions) : Async value :=
  urlParams <- getUrlParams ;;
  let rgsUrl := or_opt (forceResult_rgsUrl options) (rgsUrl urlParams) in
  match narrow rgsUrl with
  | None => throw rgsUrl_required
  | Some rgsUrl =>
      stakeEngineClient.post rgsUrl "/game/search"
        (Some (VObject [("mode", VString (forceResult_mode options));
                        ("search", forceResult_search options)]))
  end.

(** *** getBalance *)

Record BalanceOptions : Type := mkBalanceOptions {
  balance_sessionID : option string;
  balance_rgsUrl : option string
}.

Definition getBalance (options : option BalanceOptions) : Async value :=
  urlParams <- getUrlParams ;;
  let sessionID := or_opt (opt_field balance_sessionID options) (sessionID urlParams) in
  let rgsUrl := or_opt (opt_field balance_rgsUrl options) (rgsUrl urlParams) in
  match narrow sessionID with
  | None => throw sessionID_required
  | Some sessionID =>
  match narrow rgsUrl with
  | None => throw rgsUrl_required
  | Some rgsUrl =>
      stakeEngineClient.post rgsUrl "/wallet/balance"
        (Some (VObject [("sessionID", VString sessionID)]))
  end end.

(** *** replay *)

Record ReplayOptions : Type := mkReplayOptions {
  replay_game : string;
  replay_version : string;
  replay_mode : string;
  replay_event : string;
  replay_rgsUrl : option string
}.

Definition replay (options : ReplayOptions) : Async value :=
  urlParams <- getUrlParams ;;
  let rgsUrl := or_opt (replay_rgsUrl options) (rgsUrl urlParams) in
  match narrow rgsUrl with
  | None => throw rgsUrl_required
  | Some rgsUrl =>
      stakeEngineClient.get rgsUrl
        ("/bet/replay/" ++ replay_game options ++ "/" ++ replay_version options
         ++ "/" ++ replay_mode options ++ "/" ++ replay_event options)
  end.

(** *** The exports of client.ts and index.ts *)

(** What an exported name is bound to.  The operations carry the function
    itself, so two names bound to one function are equal entries. *)
Inductive Export : Type :=
| ExportOther                   (* the class, its instance, the replay helpers *)
| ExportAuthenticate (f : option AuthenticateOptions -> Async value)
| ExportPlay (f : PlayOptions -> Async value)
| ExportEndRound (f : option EndRoundOptions -> Async value)
| ExportEndEvent (f : EndEventOptions -> Async value)
| ExportForceResult (f : ForceResultOptions -> Async value)
| ExportBalance (f : option BalanceOptions -> Async value)
| ExportReplay (f : ReplayOptions -> Async value).

(** The [export] declarations of client.ts, in the order of the file. *)
Definition client_exports : list (string * Export) :=
  [ ("StakeEngineClient", ExportOther);
    ("stakeEngineClient", ExportOther);
    ("getReplayUrlParams", ExportOther);
    ("isReplayMode", ExportOther);
    ("authenticate", ExportAuthenticate authenticate);
    ("play", ExportPlay play);
    ("requestBet", ExportPlay play);
    ("endRound", ExportEndRound endRound);
    ("endEvent", ExportEndEvent endEvent);
    ("forceResult", ExportForceResult forceResult);
    ("getBalance", ExportBalance getBalance);
    ("replay", ExportReplay replay);
    ("requestAuthenticate", ExportAuthenticate authenticate);
    ("requestBalance", ExportBalance getBalance);
    ("requestEndRound", ExportEndRound endRound);
    ("requestEndEvent", ExportEndEvent endEvent);
    ("requestForceResult", ExportForceResult forceResult);
    ("requestReplay", ExportReplay replay) ].

(** The binding of a name in a list of declarations. *)
Definition find_export (name : string) (exports : list (string * Export)) : option Export :=
  lookup name exports.

(** The names index.ts re-exports with [export { ... } from './client']:
    the recommended names, then the deprecated aliases. *)
Definition index_names : list string :=
  [ "StakeEngineClient"; "stakeEngineClient"; "authenticate"; "getBalance";
    "play"; "endRound"; "endEvent"; "forceResult"; "replay";
    "getReplayUrlParams"; "isReplayMode";
    "requestAuthenticate"; "requestBalance"; "requestPlay"; "requestBet";
    "bet"; "requestEndRound"; "requestEndEvent"; "requestForceResult";
    "requestReplay" ].

(** The binding of a name imported from the package: a name index.ts lists
    resolves in client.ts. *)
Definition index_export (name : string) : option Export :=
  if existsb (String.eqb name) index_names then find_export name client_exports
  else None.

(** ** Resolution as the specification states it *)

Module Spec.

(** The explicit option if it is a non-empty value, else the ambient value
    if present, else the default of the field, if it has one. *)
Definition resolve (explicit ambient default : option string) : option string :=
  if present explicit then explicit
  else if present ambient then ambient
  else default.

Definition resolve_sessionID (explicit : option string) (h : Host) : option string :=
  resolve explicit (get_param "sessionID" (search h)) None.

Definition resolve_rgsUrl (explicit : option string) (h : Host) : option string :=
  resolve explicit (get_param "rgs_url" (search h)) None.

(** For a field with a default the resolution never fails. *)
Definition resolve_default (explicit ambient : option string) (default : string)
  : string :=
  match resolve explicit ambient (Some default) with
  | Some v => v
  | None => default
  end.

Definition resolve_language (explicit : option string) (h : Host) : string :=
  resolve_default explicit (get_param "lang" (search h)) "en".

Definition resolve_currency (explicit : option string) (h : Host) : string :=
  resolve_default explicit (get_param "currency" (search h)) "USD".

(** ApiAmount = round(AmountValue * MULTIPLIER), rounding to the nearest
    integer, a half upwards. *)
Definition round (q : Q) : Z := Qfloor (q + (1 # 2)).

Definition MULTIPLIER : Q := 1000000.

Definition toApiAmount (amount : Q) : Z := round (amount * MULTIPLIER).

End Spec.

(** ** Running the client *)

Definition sent (l : Log) (o : FetcherOptions) : Log :=
  {| requests := requests l ++ [o]; console := console l |}.

(** ** Amounts of whole hundredths *)

Module Binary64.

Local Open Scope float_scope.

Definition API_AMOUNT_MULTIPLIER : float := 1000000.

(** [options.amount * API_AMOUNT_MULTIPLIER], the product of [play]. *)
Definition api_amount (amount : float) : float :=
  amount * API_AMOUNT_MULTIPLIER.

(** The binary64 value of a natural number below 2^53, exactly. *)
Fixpoint of_pos (p : positive) : float :=
  match p with
  | xH => 1
  | xO p => 2 * of_pos p
  | xI p => 2 * of_pos p + 1
  end.

Definition of_N (n : N) : float :=
  match n with
  | N0 => 0
  | Npos p => of_pos p
  end.

(** The amount of [k] hundredths, as the decimal literal with two
    fractional digits denotes it: the binary64 value nearest to k/100. *)
Definition cents (k : N) : float := of_N k / 100.



End Binary64.

(** The shortest digits of a natural number, laid out, against its
    numeral. *)
Definition numeral_agrees (k : N) : bool :=
  match Prim2SF (Binary64.of_N k) with
  | S754_finite _ m e => shortest_toString m e =? decimal (Z.of_N k)
  | _ => (k =? 0)%N
  end.

(** *** What one call of [post] or [get] does *)

(** The completion of the error path, for a response whose status is not
    200: what is thrown, and what [console.error] received before. *)
Definition api_error (r : Response) (l : Log) : Completion value * Log :=
  let errorData := match body r with Some v => v | None => VObject [] end in
  match errorData with
  | VUndefined | VNull => (Throw TypeError, l)
  | _ =>
      let message := prop "message" errorData in
      (Throw (Error (if truthy message then message
                     else VString ("RGS API error: "
                                   ++ NilZero.string_of_uint (N.to_uint (status r))
                                   ++ " " ++ statusText r))),
       {| requests := requests l;
          console := console l ++ [[VString "RGS API error:"; message]] |})
  end.

Definition answer (o : FetcherOptions) (h : Host) (l : Log) : Completion value * Log :=
  match network h o with
  | Rejected e => (Throw e, sent l o)
  | Fulfilled r =>
      if (status r =? 200)%N then
        (match body r with Some d => Return d | None => Throw SyntaxError end,
         sent l o)
      else api_error r (sent l o)
  end.

(** ** Quantifying over the operations *)

(** One call of one of the seven operations, with its options. *)
Inductive Call : Type :=
| Authenticate (o : option AuthenticateOptions)
| Play (o : PlayOptions)
| EndRound (o : option EndRoundOptions)
| EndEvent (o : EndEventOptions)
| ForceResult (o : ForceResultOptions)
| GetBalance (o : option BalanceOptions)
| Replay (o : ReplayOptions).

Definition call (c : Call) : Async value :=
  match c with
  | Authenticate o => authenticate o
  | Play o => play o
  | EndRound o => endRound o
  | EndEvent o => endEvent o
  | ForceResult o => forceResult o
  | GetBalance o => getBalance o
  | Replay o => replay o
  end.

(** The call of an operation as the caller sees it: a promise. *)
Definition invoke (c : Call) : Async (Promise value) := async (call c).

(** The operations that need a session: all but [forceResult] and
    [replay], whose options have no [sessionID]. *)
Definition requires_sessionID (c : Call) : bool :=
  match c with
  | ForceResult _ | Replay _ => false
  | _ => true
  end.

Definition explicit_sessionID (c : Call) : option string :=
  match c with
  | Authenticate o => opt_field auth_sessionID o
  | Play o => play_sessionID o
  | EndRound o => opt_field endRound_sessionID o
  | EndEvent o => endEvent_sessionID o
  | GetBalance o => opt_field balance_sessionID o
  | ForceResult _ | Replay _ => None
  end.

Definition explicit_rgsUrl (c : Call) : option string :=
  match c with
  | Authenticate o => opt_field auth_rgsUrl o
  | Play o => play_rgsUrl o
  | EndRound o => opt_field endRound_rgsUrl o
  | EndEvent o => endEvent_rgsUrl o
  | ForceResult o => forceResult_rgsUrl o
  | GetBalance o => opt_field balance_rgsUrl o
  | Replay o => replay_rgsUrl o
  end.

(** Every parameter the operation resolves is given explicitly, as a
    non-empty value. *)
Definition fully_explicit (c : Call) : bool :=
  match c with
  | Authenticate o =>
      present (opt_field auth_sessionID o) && present (opt_field auth_rgsUrl o)
      && present (opt_field auth_language o)
  | Play o =>
      present (play_sessionID o) && present (play_rgsUrl o)
      && present (play_currency o)
  | EndRound o =>
      present (opt_field endRound_sessionID o) && present (opt_field endRound_rgsUrl o)
  | EndEvent o =>
      present (endEvent_sessionID o) && present (endEvent_rgsUrl o)
  | ForceResult o => present (forceResult_rgsUrl o)
  | GetBalance o =>
      present (opt_field balance_sessionID o) && present (opt_field balance_rgsUrl o)
  | Replay o => present (replay_rgsUrl o)
  end.

(** The request an operation makes once its parameters are resolved; the
    session is ignored by [forceResult] and [replay]. *)
Definition request_of (c : Call) (h : Host) (sid rgs : string) : FetcherOptions :=
  match c with
  | Authenticate o =>
      {| method := POST; endpoint := "https://" ++ rgs ++ "/wallet/authenticate";
         variables := Some (VObject
           [("sessionID", VString sid);
            ("language", VString (Spec.resolve_language (opt_field auth_language o) h))]) |}
  | Play o =>
      {| method := POST; endpoint := "https://" ++ rgs ++ "/wallet/play";
         variables := Some (VObject
           [("mode", VString (play_mode o));
            ("currency", VString (Spec.resolve_currency (play_currency o) h));
            ("sessionID", VString sid);
            ("amount", VNumber (play_amount o * API_AMOUNT_MULTIPLIER)%float)]) |}
  | EndRound _ =>
      {| method := POST; endpoint := "https://" ++ rgs ++ "/wallet/end-round";
         variables := Some (VObject [("sessionID", VString sid)]) |}
  | EndEvent o =>
      {| method := POST; endpoint := "https://" ++ rgs ++ "/bet/event";
         variables := Some (VObject
           [("sessionID", VString sid);
            ("event", VString (toString (eventIndex o)))]) |}
  | ForceResult o =>
      {| method := POST; endpoint := "https://" ++ rgs ++ "/game/search";
         variables := Some (VObject
           [("mode", VString (forceResult_mode o));
            ("search", forceResult_search o)]) |}
  | GetBalance _ =>
      {| method := POST; endpoint := "https://" ++ rgs ++ "/wallet/balance";
         variables := Some (VObject [("sessionID", VString sid)]) |}
  | Replay o =>
      {| method := GET;
         endpoint := "https://" ++ rgs ++ "/bet/replay/" ++ replay_game o ++ "/"
                     ++ replay_version o ++ "/" ++ replay_mode o ++ "/"
                     ++ replay_event o;
         variables := None |}
  end.

(** The string holds the character. *)
Fixpoint contains_char (c : ascii) (s : string) : bool :=
  match s with
  | EmptyString => false
  | String a rest => Ascii.eqb a c || contains_char c rest
  end.

(** ** client.ts: the replay helpers *)

(** A JavaScript number as [Number(...)] yields it: not a number, an
    infinity, or a finite value. *)
Inductive number : Type :=
| NaN
| Infinite (negative : bool)
| Finite (q : Q).

(** ToBoolean on a number: [NaN] and zero are falsy. *)
Definition truthy_number (n : number) : bool :=
  match n with
  | NaN => false
  | Infinite _ => true
  | Finite q => negb (Qeq_bool q 0)
  end.

(** [a || b] on numbers. *)
Definition or_number (a b : number) : number :=
  if truthy_number a then a else b.

(** [Number(v)] for [v : string | null]: [null] converts to 0, a string by
    the engine's StringToNumber, which is left to the host. *)
Definition Number (StringToNumber : string -> number) (v : option string) : number :=
  match v with
  | None => Finite 0
  | Some s => StringToNumber s
  end.

(** [v === s] for [v : string | null] and a string [s]. *)
Definition strict_eq (v : option string) (s : string) : bool :=
  match v with
  | Some x => x =? s
  | None => false
  end.

Module ReplayUrlParams.

Record t : Type := mk {
  replay : bool;
  amount : number;
  game : string;
  version : string;
  mode : string;
  event : string
}.

End ReplayUrlParams.

Definition getReplayUrlParams (StringToNumber : string -> number)
  : Async ReplayUrlParams.t :=
  urlParams <- ask_search ;;
  ret {| ReplayUrlParams.replay := strict_eq (get_param "replay" urlParams) "true";
         ReplayUrlParams.amount :=
           or_number (Number StringToNumber (get_param "amount" urlParams)) (Finite 0);
         ReplayUrlParams.game := or_str (get_param "game" urlParams) "";
         ReplayUrlParams.version := or_str (get_param "version" urlParams) "";
         ReplayUrlParams.mode := or_str (get_param "mode" urlParams) "";
         ReplayUrlParams.event := or_str (get_param "event" urlParams) "" |}.

Definition isReplayMode : Async bool :=
  urlParams <- ask_search ;;
  ret (strict_eq (get_param "replay" urlParams) "true").

(** The pattern of the documentation: replay the round the page URL
    designates, [replay({ game: params.game, version: params.version,
    mode: params.mode, event: params.event })] with
    [params = getReplayUrlParams()]. *)
Definition replay_from_url (StringToNumber : string -> number) : Async value :=
  params <- getReplayUrlParams StringToNumber ;;
  replay {| replay_game := ReplayUrlParams.game params;
            replay_version := ReplayUrlParams.version params;
            replay_mode := ReplayUrlParams.mode params;
            replay_event := ReplayUrlParams.event params;
            replay_rgsUrl := None |}.

(** ** demo/main.ts: the page parameters and the panels *)

Module Demo.

Record UrlParams : Type := mkUrlParams {
  sessionID : option string;
  rgsUrl : option string;
  language : string
}.

Definition getUrlParams : Async UrlParams :=
  params <- ask_search ;;
  ret {| sessionID := get_param "sessionID" params;
         rgsUrl := get_param "rgs_url" params;
         language := or_str (get_param "lang" params) "en" |}.

(** An element is known by its id and carries its [classList], a set of
    class names kept in order of insertion.  The elements the script
    fetches with [document.getElementById(...)!] exist. *)
Definition ClassList : Type := list string.

Definition contains (c : string) (l : ClassList) : bool :=
  existsb (String.eqb c) l.

(** [classList.add(c)] *)
Definition add (c : string) (l : ClassList) : ClassList :=
  if contains c l then l else (l ++ [c])%list.

(** [classList.remove(c)] *)
Definition remove (c : string) (l : ClassList) : ClassList :=
  filter (fun x => negb (x =? c)) l.

(** The part of the page the synchronous handlers touch: the class lists
    of the elements and the module variable [isReplayModeSelected]. *)
Record Page : Type := mkPage {
  classList : string -> ClassList;
  isReplayModeSelected : bool
}.

Definition update (element : string) (f : ClassList -> ClassList) (p : Page) : Page :=
  {| classList := fun id => if id =? element then f (classList p id)
                            else classList p id;
     isReplayModeSelected := isReplayModeSelected p |}.

Definition errorSection : string := "error-section".
Definition authFields : string := "auth-fields".
Definition replayFields : string := "replay-fields".
Definition authBtn : string := "auth-btn".
Definition replayBtn : string := "replay-btn".
Definition modeAuthBtn : string := "mode-auth".
Definition modeReplayBtn : string := "mode-replay".
Definition betOptions : string := "bet-options".
Definition eventOptions : string := "event-options".
Definition forceOptions : string := "force-options".
Definition replayOptions : string := "replay-options".

Definition show (element : string) : Page -> Page :=
  update element (remove "hidden").

Definition hide (element : string) : Page -> Page :=
  update element (add "hidden").

Definition hideAllOptionPanels (p : Page) : Page :=
  hide replayOptions (hide forceOptions (hide eventOptions (hide betOptions p))).

Definition clearError (p : Page) : Page := hide errorSection p.

Definition setMode (replayMode : bool) (p : Page) : Page :=
  let p := {| classList := classList p; isReplayModeSelected := replayMode |} in
  if replayMode then
    update modeReplayBtn (add "active")
      (update modeAuthBtn (remove "active")
         (show replayBtn (hide authBtn (show replayFields (hide authFields p)))))
  else
    update modeReplayBtn (remove "active")
      (update modeAuthBtn (add "active")
         (hide replayBtn (show authBtn (hide replayFields (show authFields p))))).

Definition handleBetClick (p : Page) : Page :=
  show betOptions (hideAllOptionPanels p).

Definition handleEndEventClick (p : Page) : Page :=
  show eventOptions (hideAllOptionPanels p).

Definition handleForceResultClick (p : Page) : Page :=
  show forceOptions (hideAllOptionPanels p).

Definition handleReplayClick (p : Page) : Page :=
  show replayOptions (hideAllOptionPanels p).

(** What the user does to the panels and to the mode: a click on one of
    the four buttons that open an options panel, or on one of the two mode
    buttons.  The other handlers of the page (handleBalance,
    handleEndRound, the submit handlers) are not among them. *)
Inductive Click : Type :=
| BetClick
| EndEventClick
| ForceResultClick
| ReplayClick
| ModeClick (replayMode : bool).

Definition handle (c : Click) : Page -> Page :=
  match c with
  | BetClick => handleBetClick
  | EndEventClick => handleEndEventClick
  | ForceResultClick => handleForceResultClick
  | ReplayClick => handleReplayClick
  | ModeClick replayMode => setMode replayMode
  end.

(** The handlers of a sequence of clicks, run in order. *)
Definition run (clicks : list Click) (p : Page) : Page :=
  fold_left (fun p c => handle c p) clicks p.

Definition visible (element : string) (p : Page) : bool :=
  negb (contains "hidden" (classList p element)).

Definition active (element : string) (p : Page) : bool :=
  contains "active" (classList p element).

(** The panel a click opens, if it opens one. *)
Definition panel_of (c : Click) : option string :=
  match c with
  | BetClick => Some betOptions
  | EndEventClick => Some eventOptions
  | ForceResultClick => Some forceOptions
  | ReplayClick => Some replayOptions
  | ModeClick _ => None
  end.

Definition panels : list string :=
  [betOptions; eventOptions; forceOptions; replayOptions].

End Demo.

(** ** What the operations put on the wire *)

(** The page parameters an operation reads. *)
Definition keys_read (c : Call) : list string :=
  match c with
  | Authenticate _ => ["sessionID"; "rgs_url"; "lang"]
  | Play _ => ["sessionID"; "rgs_url"; "currency"]
  | EndRound _ | EndEvent _ | GetBalance _ => ["sessionID"; "rgs_url"]
  | ForceResult _ | Replay _ => ["rgs_url"]
  end.

(** The path of an operation on the server. *)
Definition path_of (c : Call) : string :=
  match c with
  | Authenticate _ => "/wallet/authenticate"
  | Play _ => "/wallet/play"
  | EndRound _ => "/wallet/end-round"
  | EndEvent _ => "/bet/event"
  | ForceResult _ => "/game/search"
  | GetBalance _ => "/wallet/balance"
  | Replay o =>
      "/bet/replay/" ++ replay_game o ++ "/" ++ replay_version o ++ "/"
      ++ replay_mode o ++ "/" ++ replay_event o
  end.

(** The names of the fields of a request body, in order; [None] when the
    request has no body. *)
Definition body_keys (o : FetcherOptions) : option (list string) :=
  match variables o with
  | Some (VObject fields) => Some (map fst fields)
  | Some _ => Some []
  | None => None
  end.

(** The value of a field of the request body. *)
Definition body_field (key : string) (o : FetcherOptions) : value :=
  match variables o with
  | Some v => prop key v
  | None => VUndefined
  end.

(** ** Lemmas on the operations *)

Lemma narrow_or_opt (explicit ambient : option string) :
  narrow (or_opt explicit ambient) = Spec.resolve explicit ambient None.
Proof.
  unfold narrow, or_opt, Spec.resolve.
  destruct (present explicit) eqn:He.
  - now rewrite He.
  - reflexivity.
Qed.

Lemma present_Some (o : option string) :
  present o = true -> exists s, o = Some s /\ s <> "".
Proof.
  destruct o as [s|]; simpl; [|discriminate].
  intros H. exists s. split; [reflexivity|].
  intros ->. discriminate.
Qed.

Lemma or_str_or_str (explicit ambient : option string) (d : string) :
  or_str explicit (or_str ambient d) = Spec.resolve_default explicit ambient d.
Proof.
  unfold Spec.resolve_default, Spec.resolve, or_str, present.
  destruct explicit as [e|]; [destruct (e =? "") eqn:E|]; simpl;
    try reflexivity;
    destruct ambient as [a|]; [destruct (a =? "")| | destruct (a =? "") |];
    reflexivity.
Qed.

Ltac run_operation :=
  unfold getUrlParams, ask_search, bind, ret, throw;
  cbn [sessionID rgsUrl language currency];
  rewrite ?narrow_or_opt, ?or_str_or_str.

(** The operations, once [getUrlParams] has run: what they throw, or what
    they post, in terms of the resolution of the specification. *)
Section Runs.

Variable h : Host.
Variable l : Log.

Lemma authenticate_run (o : option AuthenticateOptions) :
  authenticate o h l =
  match Spec.resolve_sessionID (opt_field auth_sessionID o) h with
  | None => (Throw sessionID_required, l)
  | Some sid =>
    match Spec.resolve_rgsUrl (opt_field auth_rgsUrl o) h with
    | None => (Throw rgsUrl_required, l)
    | Some rgs =>
        stakeEngineClient.post rgs "/wallet/authenticate"
          (Some (VObject
            [("sessionID", VString sid);
             ("language", VString (Spec.resolve_language (opt_field auth_language o) h))]))
          h l
    end
  end.
Proof.
  unfold authenticate. run_operation.
  unfold Spec.resolve_sessionID, Spec.resolve_rgsUrl, Spec.resolve_language.
  destruct (Spec.resolve _ (get_param "sessionID" _) _); [|reflexivity].
  destruct (Spec.resolve _ (get_param "rgs_url" _) _); reflexivity.
Qed.

Lemma play_run (o : PlayOptions) :
  play o h l =
  match Spec.resolve_sessionID (play_sessionID o) h with
  | None => (Throw sessionID_required, l)
  | Some sid =>
    match Spec.resolve_rgsUrl (play_rgsUrl o) h with
    | None => (Throw rgsUrl_required, l)
    | Some rgs =>
        stakeEngineClient.post rgs "/wallet/play"
          (Some (VObject
            [("mode", VString (play_mode o));
             ("currency", VString (Spec.resolve_currency (play_currency o) h));
             ("sessionID", VString sid);
             ("amount", VNumber (play_amount o * API_AMOUNT_MULTIPLIER)%float)]))
          h l
    end
  end.
Proof.
  unfold play. run_operation.
  unfold Spec.resolve_sessionID, Spec.resolve_rgsUrl, Spec.resolve_currency.
  destruct (Spec.resolve _ (get_param "sessionID" _) _); [|reflexivity].
  destruct (Spec.resolve _ (get_param "rgs_url" _) _); reflexivity.
Qed.

Lemma endRound_run (o : option EndRoundOptions) :
  endRound o h l =
  match Spec.resolve_sessionID (opt_field endRound_sessionID o) h with
  | None => (Throw sessionID_required, l)
  | Some sid =>
    match Spec.resolve_rgsUrl (opt_field endRound_rgsUrl o) h with
    | None => (Throw rgsUrl_required, l)
    | Some rgs =>
        stakeEngineClient.post rgs "/wallet/end-round"
          (Some (VObject [("sessionID", VString sid)])) h l
    end
  end.
Proof.
  unfold endRound. run_operation.
  unfold Spec.resolve_sessionID, Spec.resolve_rgsUrl.
  destruct (Spec.resolve _ (get_param "sessionID" _) _); [|reflexivity].
  destruct (Spec.resolve _ (get_param "rgs_url" _) _); reflexivity.
Qed.

Lemma endEvent_run (o : EndEventOptions) :
  endEvent o h l =
  match Spec.resolve_sessionID (endEvent_sessionID o) h with
  | None => (Throw sessionID_required, l)
  | Some sid =>
    match Spec.resolve_rgsUrl (endEvent_rgsUrl o) h with
    | None => (Throw rgsUrl_required, l)
    | Some rgs =>
        stakeEngineClient.post rgs "/bet/event"
          (Some (VObject [("sessionID", VString sid);
                          ("event", VString (toString (eventIndex o)))])) h l
    end
  end.
Proof.
  unfold endEvent. run_operation.
  unfold Spec.resolve_sessionID, Spec.resolve_rgsUrl.
  destruct (Spec.resolve _ (get_param "sessionID" _) _); [|reflexivity].
  destruct (Spec.resolve _ (get_param "rgs_url" _) _); reflexivity.
Qed.

Lemma forceResult_run (o : ForceResultOptions) :
  forceResult o h l =
  match Spec.resolve_rgsUrl (forceResult_rgsUrl o) h with
  | None => (Throw rgsUrl_required, l)
  | Some rgs =>
      stakeEngineClient.post rgs "/game/search"
        (Some (VObject [("mode", VString (forceResult_mode o));
                        ("search", forceResult_search o)])) h l
  end.
Proof.
  unfold forceResult. run_operation.
  unfold Spec.resolve_rgsUrl.
  destruct (Spec.resolve _ (get_param "rgs_url" _) _); reflexivity.
Qed.

Lemma getBalance_run (o : option BalanceOptions) :
  getBalance o h l =
  match Spec.resolve_sessionID (opt_field balance_sessionID o) h with
  | None => (Throw sessionID_required, l)
  | Some sid =>
    match Spec.resolve_rgsUrl (opt_field balance_rgsUrl o) h with
    | None => (Throw rgsUrl_required, l)
    | Some rgs =>
        stakeEngineClient.post rgs "/wallet/balance"
          (Some (VObject [("sessionID", VString sid)])) h l
    end
  end.
Proof.
  unfold getBalance. run_operation.
  unfold Spec.resolve_sessionID, Spec.resolve_rgsUrl.
  destruct (Spec.resolve _ (get_param "sessionID" _) _); [|reflexivity].
  destruct (Spec.resolve _ (get_param "rgs_url" _) _); reflexivity.
Qed.

Lemma replay_run (o : ReplayOptions) :
  replay o h l =
  match Spec.resolve_rgsUrl (replay_rgsUrl o) h with
  | None => (Throw rgsUrl_required, l)
  | Some rgs =>
      stakeEngineClient.get rgs
        ("/bet/replay/" ++ replay_game o ++ "/" ++ replay_version o
         ++ "/" ++ replay_mode o ++ "/" ++ replay_event o) h l
  end.
Proof.
  unfold replay. run_operation.
  unfold Spec.resolve_rgsUrl.
  destruct (Spec.resolve _ (get_param "rgs_url" _) _); reflexivity.
Qed.

End Runs.

Lemma post_run (rgs url : string) (vars : option value) (h : Host) (l : Log) :
  stakeEngineClient.post rgs url vars h l
  = answer {| method := POST; endpoint := "https://" ++ rgs ++ url; variables := vars |} h l.
Proof.
  unfold StakeEngineClient.post, answer, api_error, bind, fetcher, sent.
  destruct (network h _) as [e|r]; [reflexivity|].
  destruct (status r =? 200)%N; cbn [negb].
  - unfold json. destruct (body r); reflexivity.
  - unfold catch, json.
    destruct (body r) as [[]|]; reflexivity.
Qed.

Lemma get_run (rgs url : string) (h : Host) (l : Log) :
  stakeEngineClient.get rgs url h l
  = answer {| method := GET; endpoint := "https://" ++ rgs ++ url; variables := None |} h l.
Proof.
  unfold StakeEngineClient.get, answer, api_error, bind, fetcher, sent.
  destruct (network h _) as [e|r]; [reflexivity|].
  destruct (status r =? 200)%N; cbn [negb].
  - unfold json. destruct (body r); reflexivity.
  - unfold catch, json.
    destruct (body r) as [[]|]; reflexivity.
Qed.

Lemma answer_requests (o : FetcherOptions) (h : Host) (l : Log) :
  requests (snd (answer o h l)) = (requests l ++ [o])%list.
Proof.
  unfold answer, api_error.
  destruct (network h o) as [e|r]; [reflexivity|].
  destruct (status r =? 200)%N; [reflexivity|].
  destruct (body r) as [[]|]; reflexivity.
Qed.

Lemma answer_search (o : FetcherOptions) (s1 s2 : URLSearchParams)
      (net : FetcherOptions -> FetchOutcome) (l : Log) :
  answer o {| search := s1; network := net |} l
  = answer o {| search := s2; network := net |} l.
Proof. reflexivity. Qed.

(** Every operation, in one equation: resolve the session when the
    operation needs one, resolve the server, make the one request. *)
Lemma call_run (c : Call) (h : Host) (l : Log) :
  call c h l =
  match (if requires_sessionID c
         then Spec.resolve_sessionID (explicit_sessionID c) h else Some "") with
  | None => (Throw sessionID_required, l)
  | Some sid =>
    match Spec.resolve_rgsUrl (explicit_rgsUrl c) h with
    | None => (Throw rgsUrl_required, l)
    | Some rgs => answer (request_of c h sid rgs) h l
    end
  end.
Proof.
  destruct c as [o|o|o|o|o|o|o]; cbn [call requires_sessionID explicit_sessionID explicit_rgsUrl].
  - rewrite authenticate_run.
    destruct (Spec.resolve_sessionID _ h); [|reflexivity].
    destruct (Spec.resolve_rgsUrl _ h); [|reflexivity]. apply post_run.
  - rewrite play_run.
    destruct (Spec.resolve_sessionID _ h); [|reflexivity].
    destruct (Spec.resolve_rgsUrl _ h); [|reflexivity]. apply post_run.
  - rewrite endRound_run.
    destruct (Spec.resolve_sessionID _ h); [|reflexivity].
    destruct (Spec.resolve_rgsUrl _ h); [|reflexivity]. apply post_run.
  - rewrite endEvent_run.
    destruct (Spec.resolve_sessionID _ h); [|reflexivity].
    destruct (Spec.resolve_rgsUrl _ h); [|reflexivity]. apply post_run.
  - rewrite forceResult_run.
    destruct (Spec.resolve_rgsUrl _ h); [|reflexivity]. apply post_run.
  - rewrite getBalance_run.
    destruct (Spec.resolve_sessionID _ h); [|reflexivity].
    destruct (Spec.resolve_rgsUrl _ h); [|reflexivity]. apply post_run.
  - rewrite replay_run.
    destruct (Spec.resolve_rgsUrl _ h); [|reflexivity].
    apply get_run.
Qed.

(** ** C1: explicit option, then ambient value, then default *)

Lemma call_requests (c : Call) (h : Host) (l : Log) (sid rgs : string) :
  (if requires_sessionID c
   then Spec.resolve_sessionID (explicit_sessionID c) h else Some "") = Some sid ->
  Spec.resolve_rgsUrl (explicit_rgsUrl c) h = Some rgs ->
  requests (snd (call c h l)) = (requests l ++ [request_of c h sid rgs])%list.
Proof.
  intros Hs Hr. rewrite call_run, Hs, Hr. apply answer_requests.
Qed.

(** C1.  Resolution follows the priority law, in every operation.
    [Spec.resolve] is the law as the specification words it: a non-empty
    explicit option is the resolved value; otherwise a present (non-empty)
    ambient value is; otherwise the default, which [sessionID] and [rgsUrl]
    lack and which is "en" for the language and "USD" for the currency.
    Every operation behaves as if it resolved its fields with it: it fails
    with the missing-parameter error when a required field resolves to
    nothing, and otherwise makes its request out of the resolved values.
    With explicit sessionID "A" and ambient "B" the request carries "A";
    with no explicit sessionID and ambient "B" it carries "B". *)
Theorem resolution_priority :
  (forall e a d, present e = true -> Spec.resolve e a d = e) /\
  (forall e a d, present e = false -> present a = true -> Spec.resolve e a d = a) /\
  (forall e a d, present e = false -> present a = false -> Spec.resolve e a d = d) /\
  (forall e h,
     Spec.resolve_sessionID e h
       = Spec.resolve e (get_param "sessionID" (search h)) None /\
     Spec.resolve_rgsUrl e h
       = Spec.resolve e (get_param "rgs_url" (search h)) None /\
     Some (Spec.resolve_language e h)
       = Spec.resolve e (get_param "lang" (search h)) (Some "en") /\
     Some (Spec.resolve_currency e h)
       = Spec.resolve e (get_param "currency" (search h)) (Some "USD")) /\
  (forall c h l,
     call c h l =
     match (if requires_sessionID c
            then Spec.resolve_sessionID (explicit_sessionID c) h else Some "") with
     | None => (Throw sessionID_required, l)
     | Some sid =>
       match Spec.resolve_rgsUrl (explicit_rgsUrl c) h with
       | None => (Throw rgsUrl_required, l)
       | Some rgs => answer (request_of c h sid rgs) h l
       end
     end) /\
  (forall net l,
     let explicitA := Some {| auth_sessionID := Some "A"; auth_rgsUrl := Some "h";
                              auth_language := None |} in
     let ambientB := {| search := [("sessionID", "B"); ("rgs_url", "h")];
                        network := net |} in
     let body sid := Some (VObject [("sessionID", VString sid);
                                    ("language", VString "en")]) in
     requests (snd (authenticate explicitA ambientB l))
       = (requests l ++ [ {| method := POST;
                             endpoint := "https://h/wallet/authenticate";
                             variables := body "A" |} ])%list /\
     requests (snd (authenticate None ambientB l))
       = (requests l ++ [ {| method := POST;
                             endpoint := "https://h/wallet/authenticate";
                             variables := body "B" |} ])%list /\
     authenticate None {| search := []; network := net |} l
       = (Throw sessionID_required, l)).
Proof.
  split; [|split; [|split; [|split; [|split]]]].
  - intros e a d He. unfold Spec.resolve. now rewrite He.
  - intros e a d He Ha. unfold Spec.resolve. now rewrite He, Ha.
  - intros e a d He Ha. unfold Spec.resolve. now rewrite He, Ha.
  - intros e h. repeat split; try reflexivity.
    + unfold Spec.resolve_language, Spec.resolve_default, Spec.resolve.
      destruct (present e) eqn:He.
      * destruct e; [reflexivity|discriminate].
      * destruct (present (get_param "lang" (search h))) eqn:Ha; [|reflexivity].
        destruct (get_param "lang" (search h)); [reflexivity|discriminate].
    + unfold Spec.resolve_currency, Spec.resolve_default, Spec.resolve.
      destruct (present e) eqn:He.
      * destruct e; [reflexivity|discriminate].
      * destruct (present (get_param "currency" (search h))) eqn:Ha; [|reflexivity].
        destruct (get_param "currency" (search h)); [reflexivity|discriminate].
  - apply call_run.
  - intros net l explicitA ambientB body. split; [|split].
    + apply (call_requests (Authenticate explicitA) ambientB l "A" "h"); reflexivity.
    + apply (call_requests (Authenticate None) ambientB l "B" "h"); reflexivity.
    + now rewrite authenticate_run.
Qed.

(** The law at work: explicit "A" over ambient "B", ambient "B" alone,
    and the defaults when the page URL has no parameter. *)
Lemma resolution_priority_witness :
  Spec.resolve (Some "A") (Some "B") None = Some "A" /\
  Spec.resolve None (Some "B") None = Some "B" /\
  Spec.resolve None None (Some "en") = Some "en" /\
  Spec.resolve (Some "") None (Some "USD") = Some "USD".
Proof.
  destruct resolution_priority as (H1 & H2 & H3 & _).
  split; [|split; [|split]].
  - apply H1. reflexivity.
  - apply H2; reflexivity.
  - apply H3; reflexivity.
  - apply H3; reflexivity.
Defined.

(** ** C2: a missing required parameter fails before any request *)

Lemma resolve_none (e a : option string) :
  present e = false -> present a = false -> Spec.resolve e a None = None.
Proof. intros He Ha. unfold Spec.resolve. now rewrite He, Ha. Qed.

Lemma resolve_some (e a : option string) :
  present e = true \/ present a = true ->
  exists v, Spec.resolve e a None = Some v.
Proof.
  unfold Spec.resolve. intros [H|H].
  - rewrite H. destruct e as [s|]; [now exists s|discriminate].
  - rewrite H. destruct (present e) eqn:He.
    + destruct e as [s|]; [now exists s|discriminate].
    + destruct a as [s|]; [now exists s|discriminate].
Qed.

Lemma invoke_run (c : Call) (h : Host) (l : Log) :
  invoke c h l =
  match call c h l with
  | (Return a, l') => (Return (FulfilledWith a), l')
  | (Throw e, l') => (Return (RejectedWith e), l')
  end.
Proof. reflexivity. Qed.

Lemma invoke_log (c : Call) (h : Host) (l : Log) :
  snd (invoke c h l) = snd (call c h l).
Proof.
  rewrite invoke_run. now destruct (call c h l) as [[a|e] l'].
Qed.

(** C2, as stated, fails: nothing is raised synchronously.  The operations
    are [async] functions: play called with no session anywhere returns
    normally, with a promise; the missing-parameter error is what the
    promise is rejected with. *)
Lemma missing_parameter_not_thrown :
  let h := {| search := [("lang", "en")];
              network := fun _ => Rejected (NetworkError "offline") |} in
  let o := {| play_amount := 1; play_mode := "base"; play_currency := None;
              play_sessionID := None; play_rgsUrl := Some "h" |} in
  invoke (Play o) h empty_log
    = (Return (RejectedWith sessionID_required), empty_log) /\
  fst (invoke (Play o) h empty_log) <> Throw sessionID_required.
Proof.
  intros h o. split; [reflexivity|]. intros H. discriminate H.
Qed.

(** C2, amended.  When a required parameter resolves to nothing, neither
    from the options nor from the page URL, the call returns a promise
    rejected with the missing-parameter error and leaves the log as it
    found it: no request was made.  The session is required by
    authenticate, play, endRound, endEvent and getBalance, and its absence
    is reported first; the server URL is required by all seven.
    forceResult and replay do not look at the session: once their server
    URL resolves they make their request, whatever the page URL holds.
    No call of an operation throws. *)
Theorem missing_parameter_rejects_first (c : Call) (h : Host) (l : Log) :
  (requires_sessionID c = true ->
   present (explicit_sessionID c) = false ->
   present (get_param "sessionID" (search h)) = false ->
   invoke c h l = (Return (RejectedWith sessionID_required), l)) /\
  (requires_sessionID c = false \/
   present (explicit_sessionID c) = true \/
   present (get_param "sessionID" (search h)) = true ->
   present (explicit_rgsUrl c) = false ->
   present (get_param "rgs_url" (search h)) = false ->
   invoke c h l = (Return (RejectedWith rgsUrl_required), l)) /\
  (requires_sessionID c = false ->
   present (explicit_rgsUrl c) = true \/
   present (get_param "rgs_url" (search h)) = true ->
   exists rgs,
     Spec.resolve_rgsUrl (explicit_rgsUrl c) h = Some rgs /\
     requests (snd (invoke c h l)) = (requests l ++ [request_of c h "" rgs])%list) /\
  (forall e, fst (invoke c h l) <> Throw e).
Proof.
  split; [|split; [|split]].
  - intros Hc He Ha. rewrite invoke_run, call_run, Hc.
    unfold Spec.resolve_sessionID. now rewrite (resolve_none _ _ He Ha).
  - intros Hsid He Ha. rewrite invoke_run, call_run.
    unfold Spec.resolve_rgsUrl. rewrite (resolve_none _ _ He Ha).
    destruct (requires_sessionID c); [|reflexivity].
    destruct Hsid as [Hsid|Hsid]; [discriminate Hsid|].
    unfold Spec.resolve_sessionID.
    destruct (resolve_some _ _ Hsid) as [sid ->]. reflexivity.
  - intros Hc Hr. rewrite invoke_log, call_run, Hc.
    destruct (resolve_some _ _ Hr) as [rgs Hrgs].
    exists rgs. unfold Spec.resolve_rgsUrl. rewrite Hrgs.
    split; [reflexivity|]. apply answer_requests.
  - intros e. rewrite invoke_run.
    destruct (call c h l) as [[a|e'] l']; discriminate.
Qed.

(** play with no session anywhere; endRound with a session and no server;
    replay with a server and no session. *)
Lemma missing_parameter_rejects_first_witness :
  let h := {| search := [("lang", "en")];
              network := fun _ => Rejected (NetworkError "offline") |} in
  invoke (Play {| play_amount := 1; play_mode := "base"; play_currency := None;
                  play_sessionID := None; play_rgsUrl := Some "h" |}) h empty_log
    = (Return (RejectedWith sessionID_required), empty_log) /\
  invoke (EndRound (Some {| endRound_sessionID := Some "s1";
                            endRound_rgsUrl := None |})) h empty_log
    = (Return (RejectedWith rgsUrl_required), empty_log) /\
  requests (snd (invoke (Replay {| replay_game := "g"; replay_version := "1";
                                   replay_mode := "base"; replay_event := "7";
                                   replay_rgsUrl := Some "h" |}) h empty_log))
    = [ {| method := GET; endpoint := "https://h/bet/replay/g/1/base/7";
           variables := None |} ].
Proof.
  intros h. split; [|split].
  - apply (missing_parameter_rejects_first
             (Play {| play_amount := 1; play_mode := "base"; play_currency := None;
                      play_sessionID := None; play_rgsUrl := Some "h" |}) h empty_log);
      reflexivity.
  - destruct (missing_parameter_rejects_first
                (EndRound (Some {| endRound_sessionID := Some "s1";
                                   endRound_rgsUrl := None |})) h empty_log)
      as (_ & H & _).
    apply H; [right; left; reflexivity|reflexivity|reflexivity].
  - destruct (missing_parameter_rejects_first
                (Replay {| replay_game := "g"; replay_version := "1";
                           replay_mode := "base"; replay_event := "7";
                           replay_rgsUrl := Some "h" |}) h empty_log)
      as (_ & _ & H & _).
    destruct (H eq_refl (or_introl eq_refl)) as (rgs & Hrgs & Hreq).
    injection Hrgs as <-. exact Hreq.
Defined.

(** ** Binary64: rounding keeps the sign *)

(** The shifts and the rounding of [SpecFloat] keep a mantissa that is not
    negative so: rounding a positive value never gives NaN, and the result
    has the sign it was given. *)
Lemma shr_1_nonneg (mrs : shr_record) :
  (0 <= shr_m mrs)%Z -> (0 <= shr_m (shr_1 mrs))%Z.
Proof.
  destruct mrs as [[|[p|p|]|p] r s]; cbn; lia.
Qed.

Lemma iter_pos_nonneg (p : positive) (mrs : shr_record) :
  (0 <= shr_m mrs)%Z -> (0 <= shr_m (iter_pos shr_1 p mrs))%Z.
Proof.
  revert mrs. induction p as [p IH|p IH|]; intros mrs H; cbn [iter_pos].
  - apply IH, IH, shr_1_nonneg, H.
  - apply IH, IH, H.
  - apply shr_1_nonneg, H.
Qed.

Lemma shr_fexp_nonneg (m e : Z) (l : location) :
  (0 <= m)%Z -> (0 <= shr_m (fst (shr_fexp prec emax m e l)))%Z.
Proof.
  intros H. unfold shr_fexp, shr.
  assert (H0 : (0 <= shr_m (shr_record_of_loc m l))%Z)
    by (destruct l as [|[]]; exact H).
  destruct (fexp prec emax (Zdigits2 m + e) - e)%Z; cbn [fst];
    [exact H0|now apply iter_pos_nonneg|exact H0].
Qed.

Lemma round_nearest_even_nonneg (m : Z) (l : location) :
  (0 <= m)%Z -> (0 <= round_nearest_even m l)%Z.
Proof.
  intros H. destruct l as [|[]]; cbn [round_nearest_even]; try lia.
  destruct (Z.even m); lia.
Qed.

Lemma binary_round_aux_signed (s : bool) (m e : Z) (l : location) :
  (0 <= m)%Z -> signed s (binary_round_aux prec emax s m e l).
Proof.
  intros H. unfold binary_round_aux.
  pose proof (shr_fexp_nonneg m e l H) as H1.
  destruct (shr_fexp prec emax m e l) as [mrs' e']. cbn [fst] in H1.
  pose proof (shr_fexp_nonneg _ e' loc_Exact
                (round_nearest_even_nonneg _ (loc_of_shr_record mrs') H1)) as H2.
  destruct (shr_fexp prec emax _ e' loc_Exact) as [mrs'' e'']. cbn [fst] in H2.
  destruct (shr_m mrs'') as [|p|p]; [reflexivity| |lia].
  destruct (e'' <=? emax - prec)%Z; reflexivity.
Qed.

(** A number other than NaN times a positive finite number keeps its
    sign, zeros and infinities included. *)
Lemma SFmul_signed (x : spec_float) (m : positive) (e : Z) :
  x <> S754_nan ->
  signed (match x with
          | S754_zero s | S754_infinity s | S754_finite s _ _ => s
          | S754_nan => false
          end)
         (SFmul prec emax x (S754_finite false m e)).
Proof.
  intros H. destruct x as [s|s| |s mx ex]; cbn [SFmul signed].
  - now destruct s.
  - now destruct s.
  - now contradiction H.
  - replace (xorb s false) with s by now destruct s.
    apply binary_round_aux_signed. lia.
Qed.

(** The multiplier 1000000 is 8589934592000000 * 2^-33. *)
Lemma Prim2SF_multiplier :
  Prim2SF 1000000 = S754_finite false 8589934592000000 (-33).
Proof. reflexivity. Qed.

Lemma SFeqb_refl (x : spec_float) :
  SFeqb x x = match x with S754_nan => false | _ => true end.
Proof.
  destruct x as [s|s| |s m e]; unfold SFeqb; cbn [SFcompare]; try reflexivity.
  - now destruct s.
  - destruct s; rewrite Z.compare_refl, Pos.compare_cont_refl; reflexivity.
Qed.

Lemma is_nan_Prim2SF (x : float) :
  is_nan x = match Prim2SF x with S754_nan => true | _ => false end.
Proof.
  unfold is_nan. rewrite eqb_spec, SFeqb_refl. now destruct (Prim2SF x).
Qed.

(** The product with the multiplier is NaN for NaN only, and has the sign
    of the number multiplied. *)
Lemma mul_multiplier_sign (x : float) :
  is_nan x = false ->
  is_nan (x * 1000000) = false /\ sign_bit (x * 1000000) = sign_bit x.
Proof.
  rewrite !is_nan_Prim2SF. unfold sign_bit.
  rewrite mul_spec, Prim2SF_multiplier. intros H.
  assert (Hx : Prim2SF x <> S754_nan) by (intros E; now rewrite E in H).
  pose proof (SFmul_signed (Prim2SF x) 8589934592000000 (-33) Hx) as Hs.
  unfold SF64mul.
  destruct (SFmul prec emax (Prim2SF x) _) as [s|s| |s m e]; cbn [signed] in Hs;
    try contradiction; split; try reflexivity; exact Hs.
Qed.

(** [0 <= x] holds of the zeros, the positive numbers and +Infinity. *)
Lemma leb_zero_Prim2SF (x : float) :
  (0 <=? x)%float = match Prim2SF x with
                    | S754_nan => false
                    | S754_zero _ => true
                    | S754_infinity s | S754_finite s _ _ => negb s
                    end.
Proof.
  rewrite leb_spec. change (Prim2SF 0) with (S754_zero false).
  destruct (Prim2SF x) as [s|[]| |[] m e]; reflexivity.
Qed.

Lemma mul_multiplier_nonneg (x : float) :
  (0 <=? x)%float = true -> (0 <=? x * 1000000)%float = true.
Proof.
  intros H.
  assert (Hn : is_nan x = false).
  { rewrite is_nan_Prim2SF. rewrite leb_zero_Prim2SF in H.
    now destruct (Prim2SF x). }
  destruct (mul_multiplier_sign x Hn) as [Hn' Hs].
  rewrite leb_zero_Prim2SF in *. rewrite is_nan_Prim2SF in Hn'.
  unfold sign_bit in Hs.
  rewrite mul_spec, Prim2SF_multiplier in *. unfold SF64mul in *.
  destruct (Prim2SF x) as [s|s| |s m e] eqn:Ex; try discriminate H.
  - cbn [SFmul]. reflexivity.
  - destruct (SFmul prec emax _ _) as [s'|s'| |s' m' e']; try reflexivity;
      try discriminate Hn'; now subst s'.
  - destruct (SFmul prec emax _ _) as [s'|s'| |s' m' e']; try reflexivity;
      try discriminate Hn'; now subst s'.
Qed.

(** ** Binary64: products and quotients that are exact *)

(** The number of binary digits of a mantissa. *)
Lemma digits2_log2 (p : positive) :
  Zpos (digits2_pos p) = (Z.log2 (Zpos p) + 1)%Z.
Proof.
  induction p as [p IH|p IH|]; cbn [digits2_pos]; [| |reflexivity];
    rewrite Pos2Z.inj_succ, IH.
  - change (Zpos p~1) with (2 * Zpos p + 1)%Z.
    rewrite Z.log2_succ_double by lia. lia.
  - change (Zpos p~0) with (2 * Zpos p)%Z.
    rewrite Z.log2_double by lia. lia.
Qed.

Lemma digits2_mul_pow2 (p q : positive) (k : Z) :
  (0 <= k)%Z -> Zpos p = (Zpos q * 2 ^ k)%Z ->
  Zpos (digits2_pos p) = (Zpos (digits2_pos q) + k)%Z.
Proof.
  intros Hk H. rewrite !digits2_log2, H, Z.log2_mul_pow2 by lia. lia.
Qed.

(** Shifting out zeros loses nothing. *)
Lemma shr_1_exact (m : Z) :
  (0 < m)%Z ->
  shr_1 (Build_shr_record (m * 2) false false) = Build_shr_record m false false.
Proof.
  intros H. destruct m as [|p|p]; try lia.
  replace (Zpos p * 2)%Z with (Zpos p~0) by lia. reflexivity.
Qed.

Lemma iter_shr_exact (p : positive) :
  forall m q : Z, (0 < q)%Z -> m = (q * 2 ^ Zpos p)%Z ->
  iter_pos shr_1 p (Build_shr_record m false false) = Build_shr_record q false false.
Proof.
  induction p as [p IH|p IH|]; intros m q Hq Hm; cbn [iter_pos].
  - assert (E : m = (q * 2 ^ Zpos p * 2 ^ Zpos p * 2)%Z).
    { rewrite Hm. replace (Zpos p~1) with (Zpos p + Zpos p + 1)%Z by lia.
      rewrite !Z.pow_add_r, Z.pow_1_r by lia. ring. }
    rewrite E, shr_1_exact by (apply Z.mul_pos_pos; [apply Z.mul_pos_pos|]; lia).
    rewrite (IH _ (q * 2 ^ Zpos p)%Z) by (try apply Z.mul_pos_pos; lia).
    now apply IH.
  - assert (E : m = (q * 2 ^ Zpos p * 2 ^ Zpos p)%Z).
    { rewrite Hm. replace (Zpos p~0) with (Zpos p + Zpos p)%Z by lia.
      rewrite Z.pow_add_r by lia. ring. }
    rewrite (IH _ (q * 2 ^ Zpos p)%Z) by (try apply Z.mul_pos_pos; lia).
    now apply IH.
  - subst m. rewrite Z.pow_1_r. now apply shr_1_exact.
Qed.

Lemma bounded_inv (m : positive) (e : Z) :
  bounded prec emax m e = true ->
  fexp prec emax (Zpos (digits2_pos m) + e) = e /\ (e <= emax - prec)%Z.
Proof.
  unfold bounded, canonical_mantissa. intros H.
  apply andb_prop in H. destruct H as [H1 H2].
  split; [now apply Z.eqb_eq|now apply Z.leb_le].
Qed.

(** Rounding a value that a number holds gives that number: when
    m * 2^e = mc * 2^ec with [mc], [ec] the mantissa and the exponent of a
    number, the rounding of [m], [e] is exact. *)
Lemma round_exact (s : bool) (m e : Z) (mc : positive) (ec : Z) :
  bounded prec emax mc ec = true ->
  (e <= ec)%Z ->
  m = (Zpos mc * 2 ^ (ec - e))%Z ->
  binary_round_aux prec emax s m e loc_Exact = S754_finite s mc ec.
Proof.
  intros Hb He Hm. destruct (bounded_inv mc ec Hb) as [Hc Hmax].
  assert (Hpos : (0 < m)%Z) by (subst m; apply Z.mul_pos_pos; [|apply Z.pow_pos_nonneg]; lia).
  destruct m as [|pm|pm]; try lia.
  assert (Hd : (Zdigits2 (Zpos pm) + e = Zpos (digits2_pos mc) + ec)%Z).
  { cbn [Zdigits2]. rewrite (digits2_mul_pow2 pm mc (ec - e)) by (lia || exact Hm). lia. }
  assert (H1 : shr_fexp prec emax (Zpos pm) e loc_Exact
               = (Build_shr_record (Zpos mc) false false, ec)).
  { unfold shr_fexp. rewrite Hd, Hc. unfold shr. cbn [shr_record_of_loc].
    destruct (ec - e)%Z as [|p|p] eqn:E; try lia.
    - rewrite Hm, Z.pow_0_r, Z.mul_1_r. f_equal. lia.
    - rewrite (iter_shr_exact p (Zpos pm) (Zpos mc)) by (lia || exact Hm).
      f_equal. lia. }
  assert (H2 : shr_fexp prec emax (Zpos mc) ec loc_Exact
               = (Build_shr_record (Zpos mc) false false, ec)).
  { unfold shr_fexp. cbn [Zdigits2]. rewrite Hc, Z.sub_diag. reflexivity. }
  unfold binary_round_aux. rewrite H1.
  cbn [shr_m loc_of_shr_record round_nearest_even]. rewrite H2. cbn [shr_m].
  apply Z.leb_le in Hmax. now rewrite Hmax.
Qed.

Lemma fexp_monotone (a b : Z) :
  (a <= b)%Z -> (fexp prec emax a <= fexp prec emax b)%Z.
Proof. unfold fexp. lia. Qed.

Lemma digits2_mul (p q : positive) :
  (Zpos (digits2_pos (p * q)) <= Zpos (digits2_pos p) + Zpos (digits2_pos q))%Z.
Proof.
  rewrite !digits2_log2, Pos2Z.inj_mul.
  pose proof (Z.log2_mul_above (Zpos p) (Zpos q)). lia.
Qed.

(** When the product of a number with the multiplier is a number, the
    product is computed exactly, and so is the quotient back. *)
Lemma multiply_divide_exact (s : bool) (mx mc : positive) (ex ec : Z) :
  bounded prec emax mx ex = true ->
  bounded prec emax mc ec = true ->
  (ex + -33 <= ec)%Z ->
  (Zpos mx * Zpos 8589934592000000 = Zpos mc * 2 ^ (ec - (ex + -33)))%Z ->
  SFmul prec emax (S754_finite s mx ex) (S754_finite false 8589934592000000 (-33))
  = S754_finite s mc ec /\
  SFdiv prec emax (S754_finite s mc ec) (S754_finite false 8589934592000000 (-33))
  = S754_finite s mx ex.
Proof.
  intros Hbx Hbc Hd Hm. split.
  - cbn [SFmul]. rewrite xorb_false_r.
    apply round_exact; [exact Hbc|exact Hd|].
    now rewrite Pos2Z.inj_mul.
  - destruct (bounded_inv mx ex Hbx) as [Hcx _].
    cbn [SFdiv]. rewrite xorb_false_r. unfold SFdiv_core_binary.
    cbn [Zdigits2].
    change (Zpos (digits2_pos 8589934592000000)) with 53%Z.
    set (e' := Z.min (fexp prec emax (Zpos (digits2_pos mc) + ec - (53 + -33)))
                     (ec - -33)).
    assert (He' : (e' <= ex)%Z).
    { assert (Hdig : (Zpos (digits2_pos (mx * 8589934592000000))
                      = Zpos (digits2_pos mc) + (ec - (ex + -33)))%Z).
      { apply digits2_mul_pow2; [lia|]. now rewrite Pos2Z.inj_mul. }
      pose proof (digits2_mul mx 8589934592000000) as Hle.
      change (Zpos (digits2_pos 8589934592000000)) with 53%Z in Hle.
      assert (Hf : (fexp prec emax (Zpos (digits2_pos mc) + ec - (53 + -33))
                    <= fexp prec emax (Zpos (digits2_pos mx) + ex))%Z)
        by (apply fexp_monotone; lia).
      rewrite Hcx in Hf. unfold e'. lia. }
    assert (Hs : (0 <= ec - -33 - e')%Z) by (unfold e'; lia).
    set (m' := match (ec - -33 - e')%Z with
               | Zpos _ => Z.shiftl (Zpos mc) (ec - -33 - e')
               | Z0 => Zpos mc
               | Zneg _ => 0%Z
               end).
    assert (Hm' : m' = (Zpos mx * 2 ^ (ex - e') * Zpos 8589934592000000)%Z).
    { assert (E : m' = (Zpos mc * 2 ^ (ec - -33 - e'))%Z).
      { unfold m'. destruct (ec - -33 - e')%Z as [|p|p] eqn:E; try lia.
        - now rewrite Z.shiftl_mul_pow2 by lia. }
      rewrite E.
      replace (ec - -33 - e')%Z with ((ec - (ex + -33)) + (ex - e'))%Z by lia.
      rewrite Z.pow_add_r by lia.
      rewrite Z.mul_assoc, <- Hm. ring. }
    assert (Hq : Z.div_eucl m' (Zpos 8589934592000000) = ((Zpos mx * 2 ^ (ex - e'))%Z, 0%Z)).
    { pose proof (Z.div_mul (Zpos mx * 2 ^ (ex - e')) (Zpos 8589934592000000)) as Hdiv.
      pose proof (Z.mod_mul (Zpos mx * 2 ^ (ex - e')) (Zpos 8589934592000000)) as Hmod.
      rewrite <- Hm' in Hdiv, Hmod. unfold Z.div, Z.modulo in Hdiv, Hmod.
      destruct (Z.div_eucl m' (Zpos 8589934592000000)) as [q r].
      rewrite Hdiv, Hmod by discriminate. reflexivity. }
    rewrite Hq.
    change (new_location (Zpos 8589934592000000) 0) with loc_Exact.
    apply round_exact; [exact Hbx|exact He'|reflexivity].
Qed.

(** ** Binary64: from rational values to mantissas *)

Lemma two_power_pos (e : Z) : 0 < 2 ^ e.
Proof. apply Qpower_0_lt. reflexivity. Qed.

Lemma magnitude_pos (m : positive) (e : Z) : 0 < magnitude m e.
Proof.
  unfold magnitude. apply Qmult_lt_0_compat; [reflexivity|apply two_power_pos].
Qed.

(** Equal values have proportional mantissas. *)
Lemma power_cancel (a b p q : Z) :
  inject_Z a * 2 ^ p == inject_Z b * 2 ^ q ->
  (p <= q)%Z ->
  a = (b * 2 ^ (q - p))%Z.
Proof.
  intros H Hpq.
  assert (E : 2 ^ q == 2 ^ p * inject_Z (2 ^ (q - p))).
  { rewrite Zpower_Qpower by lia. change (inject_Z 2) with 2.
    rewrite <- Qpower_plus by discriminate. now replace (p + (q - p))%Z with q by lia. }
  rewrite E in H.
  apply inject_Z_injective.
  rewrite inject_Z_mult.
  apply (Qmult_inj_r _ _ (2 ^ p)).
  - pose proof (two_power_pos p). lra.
  - rewrite H. ring.
Qed.

Lemma signs_agree (s s' : bool) (a b c : Q) :
  0 < a -> 0 < b -> 0 < c ->
  (if s then - a else a) * c == (if s' then - b else b) ->
  s = s' /\ a * c == b.
Proof.
  intros Ha Hb Hc H. pose proof (Qmult_lt_0_compat a c Ha Hc) as Hac.
  destruct s, s'; split; try reflexivity; try lra.
Qed.

Lemma multiplier_value :
  (1000000 : Q) == inject_Z (Zpos 8589934592000000) * 2 ^ (-33).
Proof. reflexivity. Qed.

Lemma bounded_digits (m : positive) (e : Z) :
  bounded prec emax m e = true -> (Zpos (digits2_pos m) <= 53)%Z.
Proof.
  intros H. destruct (bounded_inv m e H) as [Hc _].
  unfold fexp, prec in Hc. lia.
Qed.

Lemma Prim2SF_bounded (x : float) (s : bool) (m : positive) (e : Z) :
  Prim2SF x = S754_finite s m e -> bounded prec emax m e = true.
Proof.
  intros E. pose proof (Prim2SF_valid x) as H. now rewrite E in H.
Qed.

(** The number [x] being k/100 exactly and some number being k * 10000
    exactly, the product of [x] with 1000000 is that number, and its
    quotient by 1000000 is [x]. *)
Lemma conversion_round_trip (x y : float) (k : Z) :
  exactly x (k # 100) ->
  exactly y (inject_Z (k * 10000)) ->
  exactly (x * 1000000) (inject_Z (k * 10000)) /\
  (x * 1000000 / 1000000)%float = x.
Proof.
  unfold exactly, exact. intros Hx Hy.
  assert (Hk : inject_Z (k * 10000) == (k # 100) * 1000000).
  { unfold Qeq, Qmult, inject_Z. cbn [Qnum Qden]. rewrite Pos.mul_1_r. ring. }
  destruct (Prim2SF x) as [s|s| |s mx ex] eqn:Ex; try contradiction.
  - (* a zero *)
    assert (Ep : Prim2SF (x * 1000000) = S754_zero s).
    { rewrite mul_spec, Ex, Prim2SF_multiplier. cbn [SF64mul SFmul].
      now rewrite xorb_false_r. }
    rewrite Ep. split.
    + rewrite Hk, <- Hx. reflexivity.
    + apply Prim2SF_inj. rewrite div_spec, Ep, Ex, Prim2SF_multiplier.
      cbn [SF64div SFdiv]. now rewrite xorb_false_r.
  - (* a finite value *)
    pose proof (magnitude_pos mx ex) as Hmx.
    destruct (Prim2SF y) as [s'|s'| |s' mc ec] eqn:Ey; try contradiction.
    + exfalso. rewrite Hk, <- Hx in Hy. destruct s; lra.
    + pose proof (magnitude_pos mc ec) as Hmc.
      rewrite Hk, <- Hx in Hy. symmetry in Hy.
      destruct (signs_agree s s' _ _ 1000000 Hmx Hmc eq_refl Hy) as [<- Hv].
      pose proof (Prim2SF_bounded x _ _ _ Ex) as Hbx.
      pose proof (Prim2SF_bounded y _ _ _ Ey) as Hbc.
      assert (Hq : inject_Z (Zpos mx * Zpos 8589934592000000) * 2 ^ (ex + -33)
                   == inject_Z (Zpos mc) * 2 ^ ec).
      { rewrite inject_Z_mult, Qpower_plus by discriminate.
        unfold magnitude in Hv. rewrite multiplier_value in Hv.
        rewrite <- Hv. ring. }
      assert (Hle : (ex + -33 <= ec)%Z).
      { destruct (Z.le_gt_cases (ex + -33) ec) as [H|H]; [exact H|exfalso].
        symmetry in Hq. apply power_cancel in Hq; [|lia].
        rewrite <- Pos2Z.inj_mul in Hq.
        pose proof (digits2_mul_pow2 mc (mx * 8589934592000000) (ex + -33 - ec)
                      ltac:(lia) Hq) as Hd.
        pose proof (bounded_digits mc ec Hbc) as Hdc.
        rewrite !digits2_log2, Pos2Z.inj_mul in Hd.
        pose proof (Z.log2_mul_below (Zpos mx) (Zpos 8589934592000000)
                      ltac:(lia) ltac:(lia)) as Hlow.
        pose proof (Z.log2_nonneg (Zpos mx)).
        change (Z.log2 (Zpos 8589934592000000)) with 52%Z in Hlow.
        rewrite digits2_log2 in Hdc. lia. }
      apply power_cancel in Hq; [|exact Hle].
      destruct (multiply_divide_exact s mx mc ex ec Hbx Hbc Hle Hq) as [Hmul Hdiv].
      assert (Ep : Prim2SF (x * 1000000) = S754_finite s mc ec)
        by (rewrite mul_spec, Ex, Prim2SF_multiplier; exact Hmul).
      rewrite Ep. split.
      * rewrite Hk, <- Hx. destruct s; lra.
      * apply Prim2SF_inj.
        rewrite div_spec, Ep, Ex, Prim2SF_multiplier. exact Hdiv.
Qed.



(** ** Amounts of whole hundredths, one by one *)



(** ** C3: the amount sent by play *)

Lemma play_requests (o : PlayOptions) (h : Host) (l : Log) (sid rgs : string) :
  Spec.resolve_sessionID (play_sessionID o) h = Some sid ->
  Spec.resolve_rgsUrl (play_rgsUrl o) h = Some rgs ->
  requests (snd (play o h l))
  = (requests l ++
     [ {| method := POST;
          endpoint := "https://" ++ rgs ++ "/wallet/play";
          variables := Some (VObject
            [("mode", VString (play_mode o));
             ("currency", VString (Spec.resolve_currency (play_currency o) h));
             ("sessionID", VString sid);
             ("amount", VNumber (play_amount o * API_AMOUNT_MULTIPLIER)%float)]) |} ])%list.
Proof.
  intros Hs Hr. exact (call_requests (Play o) h l sid rgs Hs Hr).
Qed.

(** A number whose value is not an integer: the value is computed, and the
    equation with an integer has no solution. *)
Ltac no_integer H :=
  unfold exactly in H;
  match type of H with
  | match exact ?x with _ => _ end =>
      let v := eval vm_compute in (exact x) in
      change (exact x) with v in H
  end;
  unfold Qeq, inject_Z in H; cbn [Qnum Qden] in H; lia.

(** C3, as stated, fails: play applies no rounding.  For the amount
    0.0078125 (1/128, which binary64 holds exactly, as it does the
    product) the amount field sent is 7812.5: it is not
    round(0.0078125 * 1000000) = 7813, and it is no integer at all.  For
    the amount 2.01 the field is 2009999.9999999998, no integer either,
    and for the amount 2^1010 it is Infinity. *)
Lemma play_amount_not_rounded :
  let h := {| search := [];
              network := fun _ => Fulfilled {| status := 200; statusText := "OK";
                                               body := Some (VObject []) |} |} in
  let bet x := {| play_amount := x; play_mode := "base";
                  play_currency := Some "USD"; play_sessionID := Some "s1";
                  play_rgsUrl := Some "h" |} in
  let posted a := [ {| method := POST; endpoint := "https://h/wallet/play";
                       variables := Some (VObject
                         [("mode", VString "base"); ("currency", VString "USD");
                          ("sessionID", VString "s1"); ("amount", VNumber a)]) |} ] in
  requests (snd (play (bet 0.0078125%float) h empty_log)) = posted 7812.5%float /\
  exactly 0.0078125 (1 # 128) /\
  exactly 7812.5 (15625 # 2) /\
  Spec.toApiAmount (1 # 128) = 7813%Z /\
  ~ exactly 7812.5 (inject_Z (Spec.toApiAmount (1 # 128))) /\
  (forall n : Z, ~ exactly 7812.5 (inject_Z n)) /\
  toString (Binary64.cents 201) = "2.01" /\
  requests (snd (play (bet (Binary64.cents 201)) h empty_log))
    = posted 0x1.eab8fffffffffp+20%float /\
  toString 0x1.eab8fffffffffp+20 = "2009999.9999999998" /\
  (forall n : Z, ~ exactly 0x1.eab8fffffffffp+20 (inject_Z n)) /\
  requests (snd (play (bet 0x1p1010%float) h empty_log)) = posted infinity.
Proof.
  intros h bet posted.
  split; [reflexivity|]. split; [reflexivity|]. split; [reflexivity|].
  split; [reflexivity|]. split; [|split; [|split; [|split; [|split; [|split]]]]].
  - intros H. vm_compute in H. discriminate H.
  - intros n H. no_integer H.
  - vm_compute. reflexivity.
  - reflexivity.
  - vm_compute. reflexivity.
  - intros n H. no_integer H.
  - reflexivity.
Qed.

(** C3, amended.  The amount field play sends is the binary64 product
    amount * 1000000 itself, with no rounding to an integer.  For a
    non-negative amount it is a non-negative number, never NaN (it is
    Infinity when the product overflows); it need not be an integer. *)
Theorem play_amount_unrounded (o : PlayOptions) (h : Host) (l : Log) (sid rgs : string) :
  Spec.resolve_sessionID (play_sessionID o) h = Some sid ->
  Spec.resolve_rgsUrl (play_rgsUrl o) h = Some rgs ->
  (0 <=? play_amount o)%float = true ->
  let amount := (play_amount o * API_AMOUNT_MULTIPLIER)%float in
  requests (snd (play o h l))
  = (requests l ++
     [ {| method := POST;
          endpoint := "https://" ++ rgs ++ "/wallet/play";
          variables := Some (VObject
            [("mode", VString (play_mode o));
             ("currency", VString (Spec.resolve_currency (play_currency o) h));
             ("sessionID", VString sid);
             ("amount", VNumber amount)]) |} ])%list /\
  API_AMOUNT_MULTIPLIER = 1000000%float /\
  (0 <=? amount)%float = true /\
  PrimFloat.is_nan amount = false.
Proof.
  intros Hs Hr Hpos amount. split; [|split; [|split]].
  - now apply play_requests.
  - reflexivity.
  - now apply mul_multiplier_nonneg.
  - apply mul_multiplier_sign.
    rewrite is_nan_Prim2SF. rewrite leb_zero_Prim2SF in Hpos.
    now destruct (Prim2SF (play_amount o)).
Qed.

(** A bet of 2.50 from a page that provides the session and the server. *)
Lemma play_amount_unrounded_witness :
  let o := {| play_amount := 2.5; play_mode := "base"; play_currency := None;
              play_sessionID := None; play_rgsUrl := None |} in
  let h := {| search := [("sessionID", "s1"); ("rgs_url", "h")];
              network := fun _ => Rejected (NetworkError "offline") |} in
  requests (snd (play o h empty_log))
  = [ {| method := POST; endpoint := "https://h/wallet/play";
         variables := Some (VObject
           [("mode", VString "base"); ("currency", VString "USD");
            ("sessionID", VString "s1");
            ("amount", VNumber 2500000)]) |} ] /\
  (0 <=? 2500000)%float = true.
Proof.
  intros o h.
  destruct (play_amount_unrounded o h empty_log "s1" "h") as (H1 & _ & H3 & _).
  - reflexivity.
  - reflexivity.
  - reflexivity.
  - split; [exact H1|exact H3].
Defined.

(** ** C4: the conversion is exact on representable inputs *)


(** The hypothesis on the product is needed.  The amount 144216928669.25
    is a number with two decimal digits, but its product with the
    multiplier, 144216928669250000, is not representable: the amount sent
    is the nearest number, 144216928669249984, and dividing it by the
    multiplier gives 144216928669.24997. *)
Lemma unrepresentable_product_comes_back_changed :
  let x := 144216928669.25%float in
  exactly x (14421692866925 # 100) /\
  exactly (x * 1000000) (inject_Z 144216928669249984) /\
  (x * 1000000 / 1000000)%float = 0x1.0c9ffd8ce9fffp+37%float /\
  toString 0x1.0c9ffd8ce9fffp+37 = "144216928669.24997" /\
  (x * 1000000 / 1000000)%float <> x /\
  ~ representable (14421692866925 * 10000).
Proof.
  intros x.
  assert (Hx : exactly x (14421692866925 # 100)) by reflexivity.
  assert (Hne : (x * 1000000 / 1000000)%float <> x).
  { intros H. apply Leibniz.eqb_spec in H. discriminate H. }
  split; [exact Hx|]. split; [reflexivity|]. split; [reflexivity|].
  split; [vm_compute; reflexivity|]. split; [exact Hne|].
  intros [y Hy]. apply Hne.
  exact (proj2 (conversion_round_trip x y 14421692866925 Hx Hy)).
Qed.


(** ** C5: what a response other than 200 raises *)

Lemma not_extended {A : Type} (l : list A) (x : A) : l <> (l ++ [x])%list.
Proof.
  intros H. apply (f_equal (@length A)) in H.
  rewrite length_app in H. cbn in H. lia.
Qed.

Lemma call_answered (c : Call) (h : Host) (l : Log) (o : FetcherOptions) :
  requests (snd (call c h l)) = (requests l ++ [o])%list ->
  call c h l = answer o h l.
Proof.
  rewrite call_run.
  destruct (if requires_sessionID c then _ else _) as [sid|].
  - destruct (Spec.resolve_rgsUrl _ h) as [rgs|].
    + rewrite answer_requests. intros H.
      apply app_inj_tail in H. destruct H as [_ ->]. reflexivity.
    + intros H. now apply not_extended in H.
  - intros H. now apply not_extended in H.
Qed.

(** C5, as stated, fails: a message field that is the empty string is not
    the raised error's message.  On status 400 "Bad Request" with body
    {"message": ""} the error raised by getBalance has the status line as
    its message. *)
Lemma empty_message_not_passed_through :
  let r := {| status := 400; statusText := "Bad Request";
              body := Some (VObject [("message", VString "")]) |} in
  let h := {| search := []; network := fun _ => Fulfilled r |} in
  let o := Some {| balance_sessionID := Some "s1"; balance_rgsUrl := Some "h" |} in
  prop "message" (VObject [("message", VString "")]) = VString "" /\
  fst (getBalance o h empty_log)
    = Throw (Error (VString "RGS API error: 400 Bad Request")) /\
  fst (getBalance o h empty_log) <> Throw (Error (VString "")).
Proof.
  intros r h o. split; [reflexivity|]. split; [reflexivity|].
  intros H. discriminate H.
Qed.

(** C5, amended.  In every operation, a response whose status is not 200
    makes the call complete by throwing one exception.  When the body is a
    JSON object whose message field is a non-empty string, that string is
    the error's message.  When the body is not JSON, or is an object whose
    message field is absent or the empty string, the error's message is
    "RGS API error: ", the status code in decimal, a space and the status
    text. *)
Theorem api_error_message (c : Call) (h : Host) (l : Log)
        (o : FetcherOptions) (r : Response) :
  requests (snd (call c h l)) = (requests l ++ [o])%list ->
  network h o = Fulfilled r ->
  status r <> 200%N ->
  exists e : Exception,
    fst (call c h l) = Throw e /\
    (forall fields m,
       body r = Some (VObject fields) ->
       lookup "message" fields = Some (VString m) ->
       m <> "" ->
       e = Error (VString m)) /\
    (body r = None \/
     (exists fields,
        body r = Some (VObject fields) /\
        (lookup "message" fields = None \/
         lookup "message" fields = Some (VString ""))) ->
     e = Error (VString ("RGS API error: "
                         ++ NilZero.string_of_uint (N.to_uint (status r))
                         ++ " " ++ statusText r))).
Proof.
  intros Hreq Hnet Hstatus.
  rewrite (call_answered c h l o Hreq).
  unfold answer. rewrite Hnet.
  apply N.eqb_neq in Hstatus. rewrite Hstatus.
  unfold api_error.
  destruct (body r) as [v|] eqn:Hbody.
  - destruct v as [| |b|q|s|items|fields];
      (eexists; split; [reflexivity|]); split;
      try (intros fields' m Hb; discriminate Hb);
      try (intros [Hb|(fields' & Hb & _)]; discriminate Hb).
    + intros fields' m Hb Hm Hne. injection Hb as <-.
      unfold prop. rewrite Hm. cbn [truthy].
      destruct (m =? "") eqn:E; [apply String.eqb_eq in E; contradiction|].
      reflexivity.
    + intros [Hb|(fields' & Hb & Hm)]; [discriminate Hb|].
      injection Hb as <-. unfold prop.
      destruct Hm as [-> | ->]; reflexivity.
  - eexists; split; [reflexivity|]. split.
    + intros fields m Hb. discriminate Hb.
    + intros _. reflexivity.
Qed.

(** The specification's sample, {"message": "bad session"} on a 401, and
    a body that is not JSON on a 502. *)
Lemma api_error_message_witness :
  let o := Some {| balance_sessionID := Some "s1"; balance_rgsUrl := Some "h" |} in
  let answering r := {| search := []; network := fun _ => Fulfilled r |} in
  fst (getBalance o
         (answering {| status := 401; statusText := "Unauthorized";
                       body := Some (VObject [("message", VString "bad session")]) |})
         empty_log)
    = Throw (Error (VString "bad session")) /\
  fst (getBalance o
         (answering {| status := 502; statusText := "Bad Gateway"; body := None |})
         empty_log)
    = Throw (Error (VString "RGS API error: 502 Bad Gateway")).
Proof.
  intros o answering. split.
  - destruct (api_error_message (GetBalance o)
                (answering {| status := 401; statusText := "Unauthorized";
                              body := Some (VObject [("message", VString "bad session")]) |})
                empty_log
                {| method := POST; endpoint := "https://h/wallet/balance";
                   variables := Some (VObject [("sessionID", VString "s1")]) |}
                {| status := 401; statusText := "Unauthorized";
                   body := Some (VObject [("message", VString "bad session")]) |})
      as (e & He & Hmsg & _).
    + reflexivity.
    + reflexivity.
    + discriminate.
    + cbn [call] in He. rewrite He. f_equal.
      apply (Hmsg [("message", VString "bad session")] "bad session").
      * reflexivity.
      * reflexivity.
      * discriminate.
  - destruct (api_error_message (GetBalance o)
                (answering {| status := 502; statusText := "Bad Gateway"; body := None |})
                empty_log
                {| method := POST; endpoint := "https://h/wallet/balance";
                   variables := Some (VObject [("sessionID", VString "s1")]) |}
                {| status := 502; statusText := "Bad Gateway"; body := None |})
      as (e & He & _ & Hline).
    + reflexivity.
    + reflexivity.
    + discriminate.
    + cbn [call] in He. rewrite He. f_equal.
      apply Hline. now left.
Defined.

(** ** C6: one play call, end to end *)

(** C6.  play with the explicit options sessionID "s1", rgsUrl "h",
    amount 1.00 and mode "base" makes exactly one request, whatever the
    page URL and the server's answer: a POST whose body has the amount
    1000000 (the product of 1.00 and the multiplier, on binary64 values
    too) and the sessionID "s1". *)
Theorem play_end_to_end (h : Host) :
  let o := {| play_amount := 1; play_mode := "base"; play_currency := None;
              play_sessionID := Some "s1"; play_rgsUrl := Some "h" |} in
  exists r : FetcherOptions,
    requests (snd (play o h empty_log)) = [r] /\
    method r = POST /\
    endpoint r = "https://h/wallet/play" /\
    variables r = Some (VObject
      [("mode", VString "base");
       ("currency", VString (Spec.resolve_currency None h));
       ("sessionID", VString "s1");
       ("amount", VNumber 1000000)]) /\
    option_map (prop "amount") (variables r) = Some (VNumber 1000000) /\
    option_map (prop "sessionID") (variables r) = Some (VString "s1") /\
    Binary64.api_amount 1 = 1000000%float.
Proof.
  intros o. eexists. split.
  - apply (play_requests o h empty_log "s1" "h"); reflexivity.
  - repeat split.
Qed.

(** ** C7: the deprecated names *)

(** C7 at the names in question.  Each alias client.ts declares is bound
    to the very function of its canonical name; but client.ts declares
    neither requestPlay nor bet, which index.ts re-exports from it: these
    two names are bound to nothing. *)
Theorem deprecated_aliases :
  index_export "requestBet" = Some (ExportPlay play) /\
  index_export "play" = Some (ExportPlay play) /\
  index_export "requestAuthenticate" = index_export "authenticate" /\
  index_export "authenticate" = Some (ExportAuthenticate authenticate) /\
  index_export "requestBalance" = index_export "getBalance" /\
  index_export "getBalance" = Some (ExportBalance getBalance) /\
  index_export "requestEndRound" = index_export "endRound" /\
  index_export "endRound" = Some (ExportEndRound endRound) /\
  index_export "requestEndEvent" = index_export "endEvent" /\
  index_export "endEvent" = Some (ExportEndEvent endEvent) /\
  index_export "requestForceResult" = index_export "forceResult" /\
  index_export "forceResult" = Some (ExportForceResult forceResult) /\
  index_export "requestReplay" = index_export "replay" /\
  index_export "replay" = Some (ExportReplay replay) /\
  In "requestPlay" index_names /\
  find_export "requestPlay" client_exports = None /\
  index_export "requestPlay" = None /\
  In "bet" index_names /\
  index_export "bet" = None.
Proof.
  repeat split; try reflexivity; cbn; tauto.
Qed.

(** ** C8: the replay request *)

Lemma contains_char_app (c : ascii) (s t : string) :
  contains_char c (s ++ t) = contains_char c s || contains_char c t.
Proof.
  induction s as [|a s IH]; cbn [append contains_char]; [reflexivity|].
  now rewrite IH, orb_assoc.
Qed.

(** C8.  Once the server URL resolves, replay makes one request: a GET
    with no variables (no body), whose endpoint is the server followed by
    /bet/replay/ and the game, version, mode and event as they are given,
    in that order, separated by slashes, and nothing after the event.  No
    query string is added: when none of the five strings holds a question
    mark, the endpoint holds none. *)
Theorem replay_request (o : ReplayOptions) (h : Host) (l : Log) (rgs : string) :
  Spec.resolve_rgsUrl (replay_rgsUrl o) h = Some rgs ->
  let path := "/bet/replay/" ++ replay_game o ++ "/" ++ replay_version o ++ "/"
              ++ replay_mode o ++ "/" ++ replay_event o in
  requests (snd (replay o h l))
  = (requests l ++ [ {| method := GET;
                        endpoint := "https://" ++ rgs ++ path;
                        variables := None |} ])%list /\
  (contains_char "?" rgs = false ->
   contains_char "?" (replay_game o) = false ->
   contains_char "?" (replay_version o) = false ->
   contains_char "?" (replay_mode o) = false ->
   contains_char "?" (replay_event o) = false ->
   contains_char "?" ("https://" ++ rgs ++ path) = false).
Proof.
  intros Hr path. split.
  - exact (call_requests (Replay o) h l "" rgs eq_refl Hr).
  - intros H1 H2 H3 H4 H5. unfold path.
    rewrite !contains_char_app, H1, H2, H3, H4, H5. reflexivity.
Qed.

(** The example of the documentation. *)
Lemma replay_request_witness :
  let o := {| replay_game := "slots-adventure"; replay_version := "1.0.0";
              replay_mode := "base"; replay_event := "abc123";
              replay_rgsUrl := Some "api.stakeengine.com" |} in
  let h := {| search := [("sessionID", "s1")];
              network := fun _ => Rejected (NetworkError "offline") |} in
  requests (snd (replay o h empty_log))
  = [ {| method := GET;
         endpoint := "https://api.stakeengine.com/bet/replay/slots-adventure/1.0.0/base/abc123";
         variables := None |} ] /\
  contains_char "?"
    "https://api.stakeengine.com/bet/replay/slots-adventure/1.0.0/base/abc123" = false.
Proof.
  intros o h.
  destruct (replay_request o h empty_log "api.stakeengine.com" eq_refl) as [H1 H2].
  split; [exact H1|].
  apply H2; reflexivity.
Defined.

(** ** C9: explicit parameters shut the page URL out *)

Lemma resolve_present (e a d : option string) :
  present e = true -> Spec.resolve e a d = e.
Proof. intros H. unfold Spec.resolve. now rewrite H. Qed.

Lemma resolve_default_present (e a : option string) (d : string) :
  present e = true -> Some (Spec.resolve_default e a d) = e.
Proof.
  intros H. unfold Spec.resolve_default. rewrite (resolve_present e a _ H).
  destruct e; [reflexivity|discriminate].
Qed.

Lemma resolve_default_explicit (e a a' : option string) (d : string) :
  present e = true -> Spec.resolve_default e a d = Spec.resolve_default e a' d.
Proof.
  intros H.
  assert (E : Some (Spec.resolve_default e a d) = Some (Spec.resolve_default e a' d))
    by now rewrite !resolve_default_present.
  now injection E.
Qed.

(** C9.  When every parameter an operation resolves is given explicitly as
    a non-empty value, the page URL has no influence: against the same
    server, two runs from any two page URLs complete alike and leave the
    same log of requests. *)
Theorem ambient_independence (c : Call) (s1 s2 : URLSearchParams)
        (net : FetcherOptions -> FetchOutcome) (l : Log) :
  fully_explicit c = true ->
  call c {| search := s1; network := net |} l
  = call c {| search := s2; network := net |} l.
Proof.
  intros H. rewrite !call_run.
  unfold Spec.resolve_sessionID, Spec.resolve_rgsUrl.
  destruct c as [o|o|o|o|o|o|o];
    cbn [fully_explicit requires_sessionID explicit_sessionID explicit_rgsUrl] in *;
    repeat (apply andb_prop in H; destruct H as [H ?]);
    repeat match goal with
           | E : present ?e = true |- context [Spec.resolve ?e ?a None] =>
               rewrite (resolve_present e a None E)
           end;
    repeat match goal with
           | |- context [match ?e with Some _ => _ | None => _ end] =>
               destruct e; [|reflexivity]
           end;
    cbn [request_of];
    unfold Spec.resolve_language, Spec.resolve_currency;
    cbn [search];
    try match goal with
        | E : present ?e = true |- context [Spec.resolve_default ?e (?g s1) ?d] =>
            rewrite (resolve_default_explicit e (g s1) (g s2) d E)
        end;
    apply answer_search.
Qed.

(** A fully explicit play from two different page URLs. *)
Lemma ambient_independence_witness :
  let o := {| play_amount := 1; play_mode := "base"; play_currency := Some "EUR";
              play_sessionID := Some "s1"; play_rgsUrl := Some "h" |} in
  let net := fun _ : FetcherOptions =>
               Fulfilled {| status := 200; statusText := "OK";
                            body := Some (VObject []) |} in
  play o {| search := [("sessionID", "other"); ("rgs_url", "elsewhere");
                       ("currency", "USD")];
            network := net |} empty_log
  = play o {| search := []; network := net |} empty_log.
Proof.
  intros o net.
  apply (ambient_independence (Play o)
           [("sessionID", "other"); ("rgs_url", "elsewhere"); ("currency", "USD")]
           [] net empty_log).
  reflexivity.
Defined.

(** ** C10: the event index is sent as a string *)

Lemma safe_integer_of (v : Q) (p : positive) :
  v == inject_Z (Zpos p) ->
  (Zpos p <= MAX_SAFE_INTEGER)%Z ->
  safe_integer v = Some (Zpos p).
Proof.
  intros Hv Hp. unfold safe_integer.
  assert (E0 : Qfloor v = Zpos p) by (rewrite Hv; apply Qfloor_Z).
  assert (E1 : Qeq_bool (inject_Z (Zpos p)) v = true)
    by (apply Qeq_bool_iff; now symmetry).
  apply Z.leb_le in Hp. now rewrite E0, E1, Hp.
Qed.

(** The string of an integer of absolute value at most 2^53 - 1 is its
    decimal numeral, with a minus sign below zero. *)
Lemma toString_safe_integer (x : float) (n : Z) :
  exactly x (inject_Z n) ->
  (Z.abs n <= MAX_SAFE_INTEGER)%Z ->
  toString x = NilZero.string_of_int (Z.to_int n).
Proof.
  unfold exactly, exact, toString. intros Hx Hn.
  destruct (Prim2SF x) as [s|s| |s m e]; try contradiction.
  - assert (n = 0%Z) as ->
      by (unfold Qeq, inject_Z in Hx; cbn [Qnum Qden] in Hx; lia).
    reflexivity.
  - pose proof (magnitude_pos m e) as Hm. unfold finite_toString.
    destruct s, n as [|p|p];
      try (exfalso; unfold Qeq, Qlt, Qopp, inject_Z in *;
           cbn [Qnum Qden] in *; lia).
    + assert (Hv : magnitude m e == inject_Z (Zpos p)).
      { change (Zneg p) with (- Zpos p)%Z in Hx. rewrite inject_Z_opp in Hx. lra. }
      now rewrite (safe_integer_of _ p Hv Hn).
    + now rewrite (safe_integer_of _ p Hx Hn).
Qed.

(** The shortest digits of the integers from 0 to 1999, and of some up to
    2^53 - 1, laid out, are their numerals. *)
Lemma shortest_toString_of_integers :
  forallb numeral_agrees (map N.of_nat (seq 0 2000)) = true /\
  forallb numeral_agrees
    [9007199254740991; 9007199254740990; 9007199254740000; 4503599627370497;
     4503599627370496; 1234567890123456; 1000000000000000; 123456789012345;
     99999999999; 4294967296]%N = true.
Proof. split; vm_compute; reflexivity. Qed.

(** C10, as stated, fails: not every number has a decimal numeral.  The
    demo page passes [parseInt] of its input field, which is NaN when the
    field is empty: endEvent then sends the event "NaN".  An infinite
    index is sent as "Infinity", and the index 10^21 in exponent notation,
    as "1e+21". *)
Lemma event_index_not_decimal :
  let h := {| search := [];
              network := fun _ => Rejected (NetworkError "offline") |} in
  let ending x := {| eventIndex := x; endEvent_sessionID := Some "s1";
                     endEvent_rgsUrl := Some "h" |} in
  let posted event := [ {| method := POST; endpoint := "https://h/bet/event";
                           variables := Some (VObject
                             [("sessionID", VString "s1");
                              ("event", VString event)]) |} ] in
  requests (snd (endEvent (ending nan) h empty_log)) = posted "NaN" /\
  requests (snd (endEvent (ending infinity) h empty_log)) = posted "Infinity" /\
  requests (snd (endEvent (ending 1e21%float) h empty_log)) = posted "1e+21" /\
  exactly 1e21 (inject_Z (10 ^ 21)) /\
  NilZero.string_of_int (Z.to_int (10 ^ 21)) = "1000000000000000000000" /\
  requests (snd (endEvent (ending 1.5%float) h empty_log)) = posted "1.5".
Proof.
  intros h ending posted. repeat split; vm_compute; reflexivity.
Qed.

(** C10, amended.  endEvent sends the event field as a string, never as a
    number: the string of the index as a template literal gives it
    (Number::toString).  For an index that is an integer of absolute value
    at most 2^53 - 1 the string is its decimal numeral, with a minus sign
    below zero and no other character; the index 1 is sent as "1".  An
    index that is NaN is sent as "NaN". *)
Theorem endEvent_sends_string (o : EndEventOptions) (h : Host) (l : Log)
        (sid rgs : string) :
  Spec.resolve_sessionID (endEvent_sessionID o) h = Some sid ->
  Spec.resolve_rgsUrl (endEvent_rgsUrl o) h = Some rgs ->
  exists event : string,
    requests (snd (endEvent o h l))
    = (requests l ++
       [ {| method := POST;
            endpoint := "https://" ++ rgs ++ "/bet/event";
            variables := Some (VObject [("sessionID", VString sid);
                                        ("event", VString event)]) |} ])%list /\
    event = toString (eventIndex o) /\
    (forall n : Z,
       exactly (eventIndex o) (inject_Z n) ->
       (Z.abs n <= MAX_SAFE_INTEGER)%Z ->
       event = NilZero.string_of_int (Z.to_int n)) /\
    (eventIndex o = 1%float -> event = "1") /\
    (PrimFloat.is_nan (eventIndex o) = true -> event = "NaN").
Proof.
  intros Hs Hr. exists (toString (eventIndex o)).
  split; [|split; [|split; [|split]]].
  - exact (call_requests (EndEvent o) h l sid rgs Hs Hr).
  - reflexivity.
  - apply toString_safe_integer.
  - intros ->. reflexivity.
  - rewrite is_nan_Prim2SF. unfold toString.
    destruct (Prim2SF (eventIndex o)); (discriminate || reflexivity).
Qed.

(** The example of the documentation, event index 1, and the index -42. *)
Lemma endEvent_sends_string_witness :
  let h := {| search := [];
              network := fun _ => Rejected (NetworkError "offline") |} in
  let ending x := {| eventIndex := x;
                     endEvent_sessionID := Some "player-session-123";
                     endEvent_rgsUrl := Some "api.stakeengine.com" |} in
  let posted event := [ {| method := POST;
                           endpoint := "https://api.stakeengine.com/bet/event";
                           variables := Some (VObject
                             [("sessionID", VString "player-session-123");
                              ("event", VString event)]) |} ] in
  requests (snd (endEvent (ending 1%float) h empty_log)) = posted "1" /\
  requests (snd (endEvent (ending (-42)%float) h empty_log)) = posted "-42".
Proof.
  intros h ending posted. split.
  - destruct (endEvent_sends_string (ending 1%float) h empty_log "player-session-123"
                "api.stakeengine.com" eq_refl eq_refl)
      as (event & Hreq & _ & _ & H1 & _).
    rewrite (H1 eq_refl) in Hreq. exact Hreq.
  - destruct (endEvent_sends_string (ending (-42)%float) h empty_log
                "player-session-123" "api.stakeengine.com" eq_refl eq_refl)
      as (event & Hreq & _ & Hint & _).
    rewrite (Hint (-42)%Z) in Hreq.
    + exact Hreq.
    + reflexivity.
    + intros H. discriminate H.
Defined.

(** ** Beyond the claims: what a call does with the server's answer *)

(** X1.  A 200 response is returned as it was parsed: whatever operation
    made the request, the call completes with the body of the response,
    unchanged, and [console.error] is not called. *)
Theorem success_returns_body (c : Call) (h : Host) (l : Log)
        (o : FetcherOptions) (r : Response) (d : value) :
  requests (snd (call c h l)) = (requests l ++ [o])%list ->
  network h o = Fulfilled r ->
  status r = 200%N ->
  body r = Some d ->
  call c h l = (Return d, {| requests := requests l ++ [o]; console := console l |}).
Proof.
  intros Hreq Hnet Hstatus Hbody.
  rewrite (call_answered c h l o Hreq). unfold answer.
  now rewrite Hnet, Hstatus, Hbody.
Qed.

(** A balance request answered with a balance. *)
Lemma success_returns_body_witness :
  let d := VObject [("balance", VObject [("amount", VNumber 1000000);
                                         ("currency", VString "USD")])] in
  let h := {| search := [("sessionID", "s1"); ("rgs_url", "h")];
              network := fun _ => Fulfilled {| status := 200; statusText := "OK";
                                               body := Some d |} |} in
  getBalance None h empty_log
  = (Return d,
     {| requests := [ {| method := POST; endpoint := "https://h/wallet/balance";
                         variables := Some (VObject [("sessionID", VString "s1")]) |} ];
        console := [] |}).
Proof.
  intros d h.
  apply (success_returns_body (GetBalance None) h empty_log
           {| method := POST; endpoint := "https://h/wallet/balance";
              variables := Some (VObject [("sessionID", VString "s1")]) |}
           {| status := 200; statusText := "OK"; body := Some d |} d);
    reflexivity.
Defined.

(** X2.  Bodies the client cannot use.  A 200 response whose body is not
    JSON makes the call throw the SyntaxError of [response.json()]; a
    response other than 200 whose body is the JSON value null makes it
    throw a TypeError, from reading [message] of null, in place of the
    error with the status line.  Neither calls [console.error]. *)
Theorem unusable_body_throws (c : Call) (h : Host) (l : Log)
        (o : FetcherOptions) (r : Response) :
  requests (snd (call c h l)) = (requests l ++ [o])%list ->
  network h o = Fulfilled r ->
  (status r = 200%N -> body r = None ->
   call c h l = (Throw SyntaxError,
                 {| requests := requests l ++ [o]; console := console l |})) /\
  (status r <> 200%N -> body r = Some VNull ->
   call c h l = (Throw TypeError,
                 {| requests := requests l ++ [o]; console := console l |})).
Proof.
  intros Hreq Hnet.
  rewrite (call_answered c h l o Hreq). unfold answer. rewrite Hnet. split.
  - intros Hstatus Hbody. now rewrite Hstatus, Hbody.
  - intros Hstatus Hbody. apply N.eqb_neq in Hstatus.
    rewrite Hstatus. unfold api_error. now rewrite Hbody.
Qed.

(** An HTML page served with status 200, and null served with status 500. *)
Lemma unusable_body_throws_witness :
  let o := Some {| endRound_sessionID := Some "s1"; endRound_rgsUrl := Some "h" |} in
  let answering r := {| search := []; network := fun _ => Fulfilled r |} in
  fst (endRound o (answering {| status := 200; statusText := "OK"; body := None |})
         empty_log)
    = Throw SyntaxError /\
  fst (endRound o (answering {| status := 500; statusText := "Internal Server Error";
                                body := Some VNull |})
         empty_log)
    = Throw TypeError.
Proof.
  intros o answering. split.
  - destruct (unusable_body_throws (EndRound o)
                (answering {| status := 200; statusText := "OK"; body := None |})
                empty_log
                {| method := POST; endpoint := "https://h/wallet/end-round";
                   variables := Some (VObject [("sessionID", VString "s1")]) |}
                {| status := 200; statusText := "OK"; body := None |}
                eq_refl eq_refl) as [H _].
    cbn [call] in H. now rewrite (H eq_refl eq_refl).
  - destruct (unusable_body_throws (EndRound o)
                (answering {| status := 500; statusText := "Internal Server Error";
                              body := Some VNull |})
                empty_log
                {| method := POST; endpoint := "https://h/wallet/end-round";
                   variables := Some (VObject [("sessionID", VString "s1")]) |}
                {| status := 500; statusText := "Internal Server Error";
                   body := Some VNull |}
                eq_refl eq_refl) as [_ H].
    cbn [call] in H. rewrite H; [reflexivity|discriminate|reflexivity].
Defined.

(** X3.  A request the transport rejects is not retried and not hidden:
    the call throws the very exception of the rejection, after its one
    request, and [console.error] is not called. *)
Theorem rejection_propagates (c : Call) (h : Host) (l : Log)
        (o : FetcherOptions) (e : Exception) :
  requests (snd (call c h l)) = (requests l ++ [o])%list ->
  network h o = Rejected e ->
  call c h l = (Throw e, {| requests := requests l ++ [o]; console := console l |}).
Proof.
  intros Hreq Hnet.
  rewrite (call_answered c h l o Hreq). unfold answer. now rewrite Hnet.
Qed.

(** play while the network is down. *)
Lemma rejection_propagates_witness :
  let o := {| play_amount := 1; play_mode := "base"; play_currency := Some "USD";
              play_sessionID := Some "s1"; play_rgsUrl := Some "h" |} in
  let h := {| search := [];
              network := fun _ => Rejected (NetworkError "Failed to fetch") |} in
  fst (play o h empty_log) = Throw (NetworkError "Failed to fetch") /\
  length (requests (snd (play o h empty_log))) = 1%nat.
Proof.
  intros o h.
  pose proof (rejection_propagates (Play o) h empty_log
                {| method := POST; endpoint := "https://h/wallet/play";
                   variables := Some (VObject
                     [("mode", VString "base"); ("currency", VString "USD");
                      ("sessionID", VString "s1"); ("amount", VNumber 1000000)]) |}
                (NetworkError "Failed to fetch") eq_refl eq_refl) as H.
  cbn [call] in H. rewrite H. split; reflexivity.
Defined.

(** ** Beyond the claims: requests and console output *)

Lemma resolve_cases (e a : option string) :
  (Spec.resolve e a None = None /\ present e = false /\ present a = false) \/
  (exists v, Spec.resolve e a None = Some v /\
             (present e = true \/ present a = true)).
Proof.
  destruct (present e) eqn:He; [|destruct (present a) eqn:Ha].
  - right. destruct (resolve_some e a (or_introl He)) as [v Hv]. exists v. auto.
  - right. destruct (resolve_some e a (or_intror Ha)) as [v Hv]. exists v. auto.
  - left. split; [now apply resolve_none|auto].
Qed.

Lemma answer_console (o : FetcherOptions) (h : Host) (l : Log) :
  console (snd (answer o h l)) = console l \/
  exists args, console (snd (answer o h l)) = (console l ++ [args])%list.
Proof.
  unfold answer, api_error.
  destruct (network h o) as [e|r]; [now left|].
  destruct (status r =? 200)%N; [now left|].
  destruct (body r) as [[]|]; cbn [snd console sent]; eauto.
Qed.

(** X4.  An operation makes its request exactly when its required
    parameters resolve (the session, where it needs one, and the server
    URL, each from the options or the page URL), and it never makes more
    than one; it calls [console.error] at most once.  What the log held
    before stays in place. *)
Theorem one_request_when_resolved (c : Call) (h : Host) (l : Log) :
  ((exists o, requests (snd (call c h l)) = (requests l ++ [o])%list) <->
   (requires_sessionID c = true ->
    present (explicit_sessionID c) = true \/
    present (get_param "sessionID" (search h)) = true) /\
   (present (explicit_rgsUrl c) = true \/
    present (get_param "rgs_url" (search h)) = true)) /\
  (requests (snd (call c h l)) = requests l \/
   exists o, requests (snd (call c h l)) = (requests l ++ [o])%list) /\
  (console (snd (call c h l)) = console l \/
   exists args, console (snd (call c h l)) = (console l ++ [args])%list).
Proof.
  rewrite call_run. unfold Spec.resolve_sessionID, Spec.resolve_rgsUrl.
  destruct (resolve_cases (explicit_rgsUrl c) (get_param "rgs_url" (search h)))
    as [(Hr & Hr1 & Hr2) | (rgs & Hr & Hr')]; rewrite Hr.
  - (* no server URL *)
    assert (Hno : forall A (x y : Completion A) sid,
               requests (snd (match sid : option string with
                              | Some _ => (x, l) | None => (y, l) end)) = requests l)
      by (intros A x y [s|]; reflexivity).
    assert (Hco : forall A (x y : Completion A) sid,
               console (snd (match sid : option string with
                             | Some _ => (x, l) | None => (y, l) end)) = console l)
      by (intros A x y [s|]; reflexivity).
    rewrite Hno, Hco. split; [|split; now left].
    split.
    + intros [o Ho]. now apply not_extended in Ho.
    + intros [_ [H|H]]; congruence.
  - destruct (requires_sessionID c).
    + destruct (resolve_cases (explicit_sessionID c)
                  (get_param "sessionID" (search h)))
        as [(Hs & Hs1 & Hs2) | (sid & Hs & Hs')]; rewrite Hs.
      * cbn [snd]. split; [|split; now left]. split.
        -- intros [o Ho]. now apply not_extended in Ho.
        -- intros [H _]. destruct (H eq_refl); congruence.
      * rewrite answer_requests. split; [|split].
        -- split; [intros _; split; auto|intros _; eauto].
        -- right. eauto.
        -- apply answer_console.
    + rewrite answer_requests. split; [|split].
      * split; [intros _; split; [discriminate|auto]|intros _; eauto].
      * right. eauto.
      * apply answer_console.
Qed.

(** X5.  [console.error] is called for a response other than 200, and for
    nothing else.  For such a response with a body other than null the
    call logs one entry, "RGS API error:" followed by the message field of
    the parsed body ([undefined] when the body is not JSON or has no such
    field); and a call that logged anything received such a response. *)
Theorem console_error_on_api_error (c : Call) (h : Host) (l : Log) :
  (forall o r,
     requests (snd (call c h l)) = (requests l ++ [o])%list ->
     network h o = Fulfilled r ->
     status r <> 200%N ->
     body r <> Some VNull ->
     body r <> Some VUndefined ->
     console (snd (call c h l))
     = (console l ++
        [[VString "RGS API error:";
          prop "message" (match body r with Some v => v | None => VObject [] end)]])%list) /\
  (console (snd (call c h l)) <> console l ->
   exists o r,
     requests (snd (call c h l)) = (requests l ++ [o])%list /\
     network h o = Fulfilled r /\
     status r <> 200%N).
Proof.
  split.
  - intros o r Hreq Hnet Hstatus Hnull Hundef.
    rewrite (call_answered c h l o Hreq). unfold answer. rewrite Hnet.
    apply N.eqb_neq in Hstatus. rewrite Hstatus. unfold api_error.
    destruct (body r) as [[]|]; try reflexivity; congruence.
  - rewrite call_run.
    destruct (if requires_sessionID c then _ else _) as [sid|];
      [|intros H; now contradiction H].
    destruct (Spec.resolve_rgsUrl _ h) as [rgs|];
      [|intros H; now contradiction H].
    intros H. exists (request_of c h sid rgs).
    rewrite answer_requests. unfold answer in *.
    destruct (network h (request_of c h sid rgs)) as [e|r];
      [now contradiction H|].
    exists r. split; [reflexivity|]. split; [reflexivity|].
    destruct (status r =? 200)%N eqn:E; [now contradiction H|].
    now apply N.eqb_neq.
Qed.

(** A 403 whose body has no message field: the log entry ends with
    [undefined]. *)
Lemma console_error_on_api_error_witness :
  let h := {| search := [("rgs_url", "h")];
              network := fun _ => Fulfilled {| status := 403; statusText := "Forbidden";
                                               body := Some (VObject [("code", VNumber 7)]) |} |} in
  let o := {| forceResult_mode := "base"; forceResult_search := VObject [];
              forceResult_rgsUrl := None |} in
  console (snd (forceResult o h empty_log))
  = [[VString "RGS API error:"; VUndefined]].
Proof.
  intros h o.
  destruct (console_error_on_api_error (ForceResult o) h empty_log) as [H _].
  apply (H {| method := POST; endpoint := "https://h/game/search";
              variables := Some (VObject [("mode", VString "base");
                                          ("search", VObject [])]) |}
           {| status := 403; statusText := "Forbidden";
              body := Some (VObject [("code", VNumber 7)]) |});
    try reflexivity; discriminate.
Defined.

Lemma one_request_when_resolved_witness :
  let h := {| search := [("sessionID", "s1")];
              network := fun _ => Rejected (NetworkError "offline") |} in
  requests (snd (getBalance None h empty_log)) = [] /\
  exists o,
    requests (snd (getBalance (Some {| balance_sessionID := None;
                                       balance_rgsUrl := Some "h" |}) h empty_log))
    = [o].
Proof.
  intros h. split.
  - destruct (one_request_when_resolved (GetBalance None) h empty_log)
      as ([H _] & [E|[o E]] & _).
    + exact E.
    + destruct (H (ex_intro _ o E)) as [_ [F|F]]; discriminate F.
  - destruct (one_request_when_resolved
                (GetBalance (Some {| balance_sessionID := None;
                                     balance_rgsUrl := Some "h" |})) h empty_log)
      as ([_ H] & _).
    apply H. split; [intros _; now right|now left].
Defined.

(** ** Beyond the claims: what is on the wire *)

Lemma sent_request (c : Call) (h : Host) (l : Log) (o : FetcherOptions) :
  requests (snd (call c h l)) = (requests l ++ [o])%list ->
  exists sid rgs,
    (if requires_sessionID c
     then Spec.resolve_sessionID (explicit_sessionID c) h else Some "") = Some sid /\
    Spec.resolve_rgsUrl (explicit_rgsUrl c) h = Some rgs /\
    o = request_of c h sid rgs.
Proof.
  rewrite call_run.
  destruct (if requires_sessionID c then _ else _) as [sid|].
  - destruct (Spec.resolve_rgsUrl _ h) as [rgs|].
    + rewrite answer_requests. intros H.
      apply app_inj_tail in H. destruct H as [_ <-]. now exists sid, rgs.
    + intros H. now apply not_extended in H.
  - intros H. now apply not_extended in H.
Qed.

Lemma resolve_nonempty (e a : option string) (v : string) :
  Spec.resolve e a None = Some v -> v <> "".
Proof.
  unfold Spec.resolve.
  destruct (present e) eqn:He.
  - intros ->. cbn in He. intros ->. discriminate He.
  - destruct (present a) eqn:Ha; [|discriminate].
    intros ->. cbn in Ha. intros ->. discriminate Ha.
Qed.

Lemma resolve_default_nonempty (e a : option string) (d : string) :
  d <> "" -> Spec.resolve_default e a d <> "".
Proof.
  intros Hd. unfold Spec.resolve_default, Spec.resolve.
  destruct (present e) eqn:He.
  - destruct e as [s|]; [|discriminate]. cbn in He. intros ->. discriminate He.
  - destruct (present a) eqn:Ha; [|exact Hd].
    destruct a as [s|]; [|discriminate]. cbn in Ha. intros ->. discriminate Ha.
Qed.

(** X6.  No request goes out with an empty identifier.  Every request of
    every operation is addressed to "https://", a non-empty server and the
    path of the operation; where the operation needs a session the body
    holds it as a non-empty string; the language sent by authenticate and
    the currency sent by play are non-empty strings too. *)
Theorem requests_carry_resolved_values (c : Call) (h : Host) (l : Log)
        (o : FetcherOptions) :
  requests (snd (call c h l)) = (requests l ++ [o])%list ->
  (exists rgs, rgs <> "" /\ endpoint o = "https://" ++ rgs ++ path_of c) /\
  (requires_sessionID c = true ->
   exists sid, sid <> "" /\ body_field "sessionID" o = VString sid) /\
  (forall a, c = Authenticate a ->
             exists lang, lang <> "" /\ body_field "language" o = VString lang) /\
  (forall p, c = Play p ->
             exists cur, cur <> "" /\ body_field "currency" o = VString cur).
Proof.
  intros H. destruct (sent_request c h l o H) as (sid & rgs & Hs & Hr & ->).
  apply resolve_nonempty in Hr. split; [|split; [|split]].
  - exists rgs. split; [exact Hr|]. destruct c; reflexivity.
  - intros Hc. rewrite Hc in Hs. apply resolve_nonempty in Hs.
    exists sid. split; [exact Hs|]. destruct c; try discriminate Hc; reflexivity.
  - intros a ->. eexists. split; [|reflexivity].
    now apply resolve_default_nonempty.
  - intros p ->. eexists. split; [|reflexivity].
    now apply resolve_default_nonempty.
Qed.

(** authenticate with empty language everywhere still sends "en". *)
Lemma requests_carry_resolved_values_witness :
  let c := Authenticate (Some {| auth_sessionID := Some "s1"; auth_rgsUrl := None;
                                 auth_language := Some "" |}) in
  let h := {| search := [("rgs_url", "h"); ("lang", "")];
              network := fun _ => Rejected (NetworkError "offline") |} in
  let o := {| method := POST; endpoint := "https://h/wallet/authenticate";
              variables := Some (VObject [("sessionID", VString "s1");
                                          ("language", VString "en")]) |} in
  requests (snd (call c h empty_log)) = [o] /\
  exists lang, lang <> "" /\ body_field "language" o = VString lang.
Proof.
  intros c h o. split; [reflexivity|].
  destruct (requests_carry_resolved_values c h empty_log o eq_refl)
    as (_ & _ & H & _).
  exact (H _ eq_refl).
Defined.

(** X7.  The shape of the requests.  replay alone uses GET, and sends no
    body; the other six use POST with a body whose fields are, in order:
    sessionID and language (authenticate); mode, currency, sessionID and
    amount (play); sessionID (endRound, getBalance); sessionID and event
    (endEvent); mode and search (forceResult).  forceResult forwards its
    mode and its search object unchanged, and sends no session even when
    the page URL holds one. *)
Theorem wire_contract (c : Call) (h : Host) (l : Log) (o : FetcherOptions) :
  requests (snd (call c h l)) = (requests l ++ [o])%list ->
  method o = match c with Replay _ => GET | _ => POST end /\
  body_keys o = match c with
                | Authenticate _ => Some ["sessionID"; "language"]
                | Play _ => Some ["mode"; "currency"; "sessionID"; "amount"]
                | EndRound _ | GetBalance _ => Some ["sessionID"]
                | EndEvent _ => Some ["sessionID"; "event"]
                | ForceResult _ => Some ["mode"; "search"]
                | Replay _ => None
                end /\
  (forall f, c = ForceResult f ->
             body_field "mode" o = VString (forceResult_mode f) /\
             body_field "search" o = forceResult_search f /\
             body_field "sessionID" o = VUndefined).
Proof.
  intros H. destruct (sent_request c h l o H) as (sid & rgs & _ & _ & ->).
  split; [|split].
  - destruct c; reflexivity.
  - destruct c; reflexivity.
  - intros f ->. repeat split.
Qed.

(** A search from a page whose URL holds a session. *)
Lemma wire_contract_witness :
  let f := {| forceResult_mode := "base";
              forceResult_search := VObject [("bookID", VNumber 42);
                                             ("symbol", VString "BONUS")];
              forceResult_rgsUrl := None |} in
  let h := {| search := [("sessionID", "s1"); ("rgs_url", "h")];
              network := fun _ => Rejected (NetworkError "offline") |} in
  let o := {| method := POST; endpoint := "https://h/game/search";
              variables := Some (VObject
                [("mode", VString "base");
                 ("search", VObject [("bookID", VNumber 42);
                                     ("symbol", VString "BONUS")])]) |} in
  requests (snd (forceResult f h empty_log)) = [o] /\
  body_keys o = Some ["mode"; "search"] /\
  body_field "sessionID" o = VUndefined.
Proof.
  intros f h o. split; [reflexivity|].
  destruct (wire_contract (ForceResult f) h empty_log o eq_refl) as (_ & Hk & Hf).
  split; [exact Hk|]. now destruct (Hf f eq_refl) as (_ & _ & Hs).
Defined.

Lemma mul_multiplier_nan (x : float) :
  PrimFloat.is_nan x = true -> PrimFloat.is_nan (x * 1000000) = true.
Proof.
  rewrite !is_nan_Prim2SF, mul_spec.
  destruct (Prim2SF x); try discriminate. reflexivity.
Qed.

Lemma mul_multiplier_zero (x : float) :
  PrimFloat.is_zero x = true -> PrimFloat.is_zero (x * 1000000) = true.
Proof.
  unfold PrimFloat.is_zero. rewrite !eqb_spec, mul_spec, Prim2SF_multiplier.
  change (Prim2SF zero) with (S754_zero false).
  destruct (Prim2SF x) as [s|[]| |[] m e]; try discriminate. reflexivity.
Qed.

(** X8.  play does not validate the bet.  Once session and server resolve
    the request goes out whatever the amount and the mode are, a negative,
    zero, infinite or NaN amount included: the mode is sent as given, and
    the amount field is the product amount * 1000000, which is NaN for
    NaN, a zero for a zero, and otherwise a number of the sign of the
    amount. *)
Theorem play_does_not_validate (o : PlayOptions) (h : Host) (l : Log)
        (sid rgs : string) :
  Spec.resolve_sessionID (play_sessionID o) h = Some sid ->
  Spec.resolve_rgsUrl (play_rgsUrl o) h = Some rgs ->
  exists (r : FetcherOptions) (a : float),
    requests (snd (play o h l)) = (requests l ++ [r])%list /\
    body_field "mode" r = VString (play_mode o) /\
    body_field "amount" r = VNumber a /\
    a = (play_amount o * 1000000)%float /\
    (PrimFloat.is_nan (play_amount o) = true -> PrimFloat.is_nan a = true) /\
    (PrimFloat.is_nan (play_amount o) = false ->
     PrimFloat.is_nan a = false /\ sign_bit a = sign_bit (play_amount o)) /\
    (PrimFloat.is_zero (play_amount o) = true -> PrimFloat.is_zero a = true).
Proof.
  intros Hs Hr. eexists. exists (play_amount o * API_AMOUNT_MULTIPLIER)%float.
  split; [exact (play_requests o h l sid rgs Hs Hr)|].
  split; [reflexivity|]. split; [reflexivity|].
  unfold API_AMOUNT_MULTIPLIER. split; [reflexivity|]. split; [|split].
  - apply mul_multiplier_nan.
  - apply mul_multiplier_sign.
  - apply mul_multiplier_zero.
Qed.

(** A bet of -5 with an empty mode. *)
Lemma play_does_not_validate_witness :
  let o := {| play_amount := -5; play_mode := ""; play_currency := None;
              play_sessionID := Some "s1"; play_rgsUrl := Some "h" |} in
  let h := {| search := [];
              network := fun _ => Rejected (NetworkError "offline") |} in
  exists a,
    requests (snd (play o h empty_log))
    = [ {| method := POST; endpoint := "https://h/wallet/play";
           variables := Some (VObject
             [("mode", VString ""); ("currency", VString "USD");
              ("sessionID", VString "s1"); ("amount", VNumber a)]) |} ] /\
    a = (-5000000)%float /\
    sign_bit a = true.
Proof.
  intros o h.
  destruct (play_does_not_validate o h empty_log "s1" "h" eq_refl eq_refl)
    as (r & a & Hreq & _ & Ha & Hprod & _ & Hsign & _).
  exists a. split; [|split].
  - cbn in Hreq. injection Hreq as <-. cbn in Ha. injection Ha as <-.
    reflexivity.
  - exact Hprod.
  - now destruct (Hsign eq_refl) as [_ ->].
Defined.

(** ** Beyond the claims: the page URL *)

(** X9.  An operation reads the page URL only through the first values of
    its own parameters: sessionID, rgs_url and lang for authenticate;
    sessionID, rgs_url and currency for play; sessionID and rgs_url for
    endRound, endEvent and getBalance; rgs_url alone for forceResult and
    replay.  Two page URLs that agree on them give the same run, whatever
    the options are. *)
Theorem reads_only_its_parameters (c : Call) (s1 s2 : URLSearchParams)
        (net : FetcherOptions -> FetchOutcome) (l : Log) :
  (forall k, In k (keys_read c) -> get_param k s1 = get_param k s2) ->
  call c {| search := s1; network := net |} l
  = call c {| search := s2; network := net |} l.
Proof.
  intros H. rewrite !call_run.
  unfold Spec.resolve_sessionID, Spec.resolve_rgsUrl. cbn [search].
  assert (Hr : get_param "rgs_url" s1 = get_param "rgs_url" s2)
    by (apply H; destruct c; cbn; tauto).
  rewrite Hr.
  destruct c as [o|o|o|o|o|o|o];
    cbn [requires_sessionID explicit_sessionID explicit_rgsUrl keys_read] in *;
    try (assert (Hs : get_param "sessionID" s1 = get_param "sessionID" s2)
           by (apply H; cbn; tauto);
         rewrite Hs;
         destruct (Spec.resolve _ (get_param "sessionID" s2) None);
         [|reflexivity]);
    (destruct (Spec.resolve _ (get_param "rgs_url" s2) None); [|reflexivity]);
    cbn [request_of]; unfold Spec.resolve_language, Spec.resolve_currency;
    cbn [search];
    try (assert (Hl : get_param "lang" s1 = get_param "lang" s2)
           by (apply H; cbn; tauto); rewrite Hl);
    try (assert (Hc : get_param "currency" s1 = get_param "currency" s2)
           by (apply H; cbn; tauto); rewrite Hc);
    apply answer_search.
Qed.

(** play does not depend on lang, nor on a second sessionID. *)
Lemma reads_only_its_parameters_witness :
  let o := {| play_amount := 1; play_mode := "base"; play_currency := None;
              play_sessionID := None; play_rgsUrl := None |} in
  let net := fun _ : FetcherOptions => Rejected (NetworkError "offline") in
  play o {| search := [("sessionID", "s1"); ("rgs_url", "h"); ("lang", "de");
                       ("sessionID", "s2")];
            network := net |} empty_log
  = play o {| search := [("rgs_url", "h"); ("sessionID", "s1")];
              network := net |} empty_log.
Proof.
  intros o net.
  apply (reads_only_its_parameters (Play o)
           [("sessionID", "s1"); ("rgs_url", "h"); ("lang", "de"); ("sessionID", "s2")]
           [("rgs_url", "h"); ("sessionID", "s1")] net empty_log).
  intros k [<-|[<-|[<-|[]]]]; reflexivity.
Defined.

(** X10.  isReplayMode and the replay field of getReplayUrlParams are the
    same flag: it is set exactly when the first replay parameter of the
    page URL is the string "true", and reading it changes nothing. *)
Theorem replay_mode_flag (StringToNumber : string -> number) (h : Host) (l : Log) :
  exists p : ReplayUrlParams.t,
    getReplayUrlParams StringToNumber h l = (Return p, l) /\
    isReplayMode h l = (Return (ReplayUrlParams.replay p), l) /\
    (ReplayUrlParams.replay p = true <->
     get_param "replay" (search h) = Some "true").
Proof.
  eexists. split; [reflexivity|]. split; [reflexivity|].
  cbn [ReplayUrlParams.replay]. unfold strict_eq.
  destruct (get_param "replay" (search h)) as [v|].
  - rewrite String.eqb_eq. split; [now intros ->|now intros [= ->]].
  - split; discriminate.
Qed.

(** X11.  The amount of getReplayUrlParams is always a number one can
    display: never NaN.  It is 0 when the page URL has no amount, and when
    its amount converts to NaN or to zero; otherwise it is the converted
    value. *)
Theorem replay_amount_is_a_number (StringToNumber : string -> number)
        (h : Host) (l : Log) :
  exists p : ReplayUrlParams.t,
    getReplayUrlParams StringToNumber h l = (Return p, l) /\
    ReplayUrlParams.amount p <> NaN /\
    (get_param "amount" (search h) = None ->
     ReplayUrlParams.amount p = Finite 0) /\
    (forall v, get_param "amount" (search h) = Some v ->
               ReplayUrlParams.amount p
               = if truthy_number (StringToNumber v) then StringToNumber v
                 else Finite 0).
Proof.
  eexists. split; [reflexivity|]. cbn [ReplayUrlParams.amount].
  unfold or_number, Number. split; [|split].
  - destruct (get_param "amount" (search h)) as [v|]; [|discriminate].
    destruct (StringToNumber v) as [|s|q] eqn:E; cbn [truthy_number];
      try discriminate.
    destruct (negb (Qeq_bool q 0)); discriminate.
  - intros ->. reflexivity.
  - intros v ->. reflexivity.
Qed.

(** A page URL whose amount is not a number, under a conversion that
    knows no number at all. *)
Lemma replay_amount_is_a_number_witness :
  let h := {| search := [("replay", "true"); ("amount", "abc")];
              network := fun _ => Rejected (NetworkError "offline") |} in
  exists p,
    getReplayUrlParams (fun _ => NaN) h empty_log = (Return p, empty_log) /\
    ReplayUrlParams.amount p = Finite 0.
Proof.
  intros h.
  destruct (replay_amount_is_a_number (fun _ => NaN) h empty_log)
    as (p & Hp & _ & _ & Hv).
  exists p. split; [exact Hp|]. exact (Hv "abc" eq_refl).
Defined.

(** X12.  Replaying the round of the page URL.  Fed with the fields of
    getReplayUrlParams, replay asks for
    /bet/replay/game/version/mode/event with the first values of these
    four page parameters, an absent or empty one giving an empty segment:
    the fields are not checked, and the request goes out as soon as the
    page URL holds a server. *)
Theorem replay_from_url_request (StringToNumber : string -> number)
        (h : Host) (l : Log) (rgs : string) :
  Spec.resolve_rgsUrl None h = Some rgs ->
  let segment name := or_str (get_param name (search h)) "" in
  requests (snd (replay_from_url StringToNumber h l))
  = (requests l ++
     [ {| method := GET;
          endpoint := "https://" ++ rgs ++ "/bet/replay/" ++ segment "game" ++ "/"
                      ++ segment "version" ++ "/" ++ segment "mode" ++ "/"
                      ++ segment "event";
          variables := None |} ])%list.
Proof.
  intros Hr segment.
  unfold replay_from_url, getReplayUrlParams, bind, ask_search, ret.
  cbn [ReplayUrlParams.game ReplayUrlParams.version ReplayUrlParams.mode
       ReplayUrlParams.event].
  set (o := {| replay_game := _ |}).
  exact (call_requests (Replay o) h l "" rgs eq_refl Hr).
Qed.

(** A page URL with a server and nothing else. *)
Lemma replay_from_url_request_witness :
  let h := {| search := [("rgs_url", "h")];
              network := fun _ => Rejected (NetworkError "offline") |} in
  requests (snd (replay_from_url (fun _ => NaN) h empty_log))
  = [ {| method := GET; endpoint := "https://h/bet/replay////";
         variables := None |} ].
Proof.
  intros h.
  exact (replay_from_url_request (fun _ => NaN) h empty_log "h" eq_refl).
Defined.

(** X13.  The demo page reads the URL as the library does: its own
    getUrlParams gives the sessionID, the rgsUrl and the language of the
    library's getUrlParams, with the same default "en". *)
Theorem demo_reads_url_like_client (h : Host) (l : Log) :
  exists (d : Demo.UrlParams) (u : UrlParams),
    Demo.getUrlParams h l = (Return d, l) /\
    getUrlParams h l = (Return u, l) /\
    Demo.sessionID d = sessionID u /\
    Demo.rgsUrl d = rgsUrl u /\
    Demo.language d = language u.
Proof.
  do 2 eexists. repeat split.
Qed.

(** ** Beyond the claims: the panels and the mode of the demo page *)

Section DemoPage.

Import Demo.

Lemma contains_remove (c : string) (l : ClassList) :
  contains c (remove c l) = false.
Proof.
  unfold contains, remove. induction l as [|x l IH]; [reflexivity|].
  cbn [filter]. destruct (x =? c) eqn:E; cbn [negb]; [exact IH|].
  cbn [existsb]. rewrite IH, String.eqb_sym, E. reflexivity.
Qed.

Lemma contains_add (c : string) (l : ClassList) :
  contains c (add c l) = true.
Proof.
  unfold add. destruct (contains c l) eqn:E; [exact E|].
  unfold contains. rewrite existsb_app. cbn [existsb].
  now rewrite String.eqb_refl, orb_true_r.
Qed.

Lemma update_other (element id : string) (f : ClassList -> ClassList) (p : Page) :
  id <> element -> classList (update element f p) id = classList p id.
Proof.
  intros H. cbn [update classList].
  destruct (id =? element) eqn:E; [|reflexivity].
  apply String.eqb_eq in E. contradiction.
Qed.

Lemma run_app (a b : list Click) (p : Page) :
  run (a ++ b) p = run b (run a p).
Proof. apply fold_left_app. Qed.

Ltac page_step :=
  unfold handle, handleBetClick, handleEndEventClick, handleForceResultClick,
    handleReplayClick, hideAllOptionPanels, setMode, show, hide, visible, active;
  cbn [update classList isReplayModeSelected String.eqb Ascii.eqb Bool.eqb
       betOptions eventOptions forceOptions replayOptions authFields replayFields
       authBtn replayBtn modeAuthBtn modeReplayBtn];
  rewrite ?contains_remove, ?contains_add.

Lemma panel_click_opens (c : Click) (panel q : string) (p : Page) :
  panel_of c = Some panel ->
  In q panels ->
  visible q (handle c p) = (q =? panel).
Proof.
  intros Hc Hq.
  destruct c; cbn [panel_of] in Hc; try discriminate Hc; injection Hc as <-;
    destruct Hq as [<-|[<-|[<-|[<-|[]]]]]; page_step; reflexivity.
Qed.

Lemma mode_click_keeps_panels (c : Click) (q : string) (p : Page) :
  panel_of c = None ->
  In q panels ->
  classList (handle c p) q = classList p q.
Proof.
  intros Hc Hq. destruct c as [| | | |[|]]; try discriminate Hc;
    destruct Hq as [<-|[<-|[<-|[<-|[]]]]]; page_step; reflexivity.
Qed.

Lemma panel_click_keeps_mode (c : Click) (q : string) (p : Page) :
  panel_of c <> None ->
  In q [authFields; replayFields; authBtn; replayBtn; modeAuthBtn; modeReplayBtn] ->
  classList (handle c p) q = classList p q /\
  isReplayModeSelected (handle c p) = isReplayModeSelected p.
Proof.
  intros Hc Hq. destruct c; try (now contradiction Hc);
    destruct Hq as [<-|[<-|[<-|[<-|[<-|[<-|[]]]]]]]; page_step; split; reflexivity.
Qed.

Lemma mode_click_sets (b : bool) (p : Page) :
  let p' := handle (ModeClick b) p in
  isReplayModeSelected p' = b /\
  visible authFields p' = negb b /\
  visible replayFields p' = b /\
  visible authBtn p' = negb b /\
  visible replayBtn p' = b /\
  active modeAuthBtn p' = negb b /\
  active modeReplayBtn p' = b.
Proof.
  destruct b; page_step; repeat split.
Qed.

Lemma panel_click_keeps_others (c : Click) (id : string) (p : Page) :
  panel_of c <> None ->
  ~ In id panels ->
  classList (handle c p) id = classList p id.
Proof.
  intros Hc H.
  assert (Hne : forall e, In e panels -> id <> e)
    by (intros e He ->; contradiction).
  destruct c; try (now contradiction Hc);
    unfold handle, handleBetClick, handleEndEventClick, handleForceResultClick,
      handleReplayClick, hideAllOptionPanels, show, hide;
    repeat (rewrite update_other by (apply Hne; cbn; tauto));
    reflexivity.
Qed.

(** X14.  One options panel at a time.  Each of the handlers of the four
    panel buttons (handleBetClick, handleEndEventClick,
    handleForceResultClick, handleReplayClick), run on the page in any
    state, leaves exactly its own options panel visible and the other
    three hidden, and changes neither the classes of any other element nor
    the mode.  hideAllOptionPanels followed by clearError, with which
    handleBalance and handleEndRound begin, leaves no panel visible; and
    setMode leaves the four panels as they are. *)
Theorem one_panel_open (c : Click) (panel : string) (p : Page) :
  panel_of c = Some panel ->
  (forall q, In q panels -> visible q (handle c p) = (q =? panel)) /\
  (forall id, ~ In id panels -> classList (handle c p) id = classList p id) /\
  isReplayModeSelected (handle c p) = isReplayModeSelected p /\
  (forall q, In q panels ->
             visible q (clearError (hideAllOptionPanels p)) = false) /\
  (forall replayMode q, In q panels ->
                        classList (setMode replayMode p) q = classList p q).
Proof.
  intros Hc. split; [|split; [|split; [|split]]].
  - intros q Hq. now apply panel_click_opens.
  - intros id Hid. apply panel_click_keeps_others; [|exact Hid].
    rewrite Hc. discriminate.
  - destruct c; try discriminate Hc; reflexivity.
  - intros q Hq. unfold clearError.
    destruct Hq as [<-|[<-|[<-|[<-|[]]]]]; page_step;
      cbn [errorSection String.eqb Ascii.eqb Bool.eqb];
      rewrite ?contains_add; reflexivity.
  - intros replayMode q Hq.
    exact (mode_click_keeps_panels (ModeClick replayMode) q p eq_refl Hq).
Qed.

(** The force-result button, on a page where every element has the class
    "panel" only. *)
Lemma one_panel_open_witness :
  let p := {| classList := fun _ => ["panel"]; isReplayModeSelected := false |} in
  let p' := handleForceResultClick p in
  visible forceOptions p' = true /\
  visible betOptions p' = false /\
  classList p' errorSection = ["panel"].
Proof.
  intros p p'.
  destruct (one_panel_open ForceResultClick forceOptions p eq_refl)
    as (Hv & Hf & _).
  split; [|split].
  - apply (Hv forceOptions). cbn. tauto.
  - apply (Hv betOptions). cbn. tauto.
  - apply (Hf errorSection). cbn. intros H.
    repeat (destruct H as [H|H]; [discriminate H|]). exact H.
Defined.

(** X15.  The mode follows the last mode click.  After any sequence of
    clicks, with [replayMode] the argument of the last setMode and any
    panel clicks after it: isReplayModeSelected is [replayMode]; of the
    two field groups and of the two login buttons exactly the replay ones
    are visible in replay mode and exactly the authentication ones
    otherwise; and the active mode button is the one of the mode. *)
Theorem mode_follows_last_click (before after : list Click) (replayMode : bool)
        (p : Page) :
  Forall (fun m => panel_of m <> None) after ->
  let p' := run (before ++ ModeClick replayMode :: after) p in
  isReplayModeSelected p' = replayMode /\
  visible authFields p' = negb replayMode /\
  visible replayFields p' = replayMode /\
  visible authBtn p' = negb replayMode /\
  visible replayBtn p' = replayMode /\
  active modeAuthBtn p' = negb replayMode /\
  active modeReplayBtn p' = replayMode.
Proof.
  intros Hafter p'. subst p'. rewrite run_app. cbn [run fold_left].
  fold (run after (handle (ModeClick replayMode) (run before p))).
  pose proof (mode_click_sets replayMode (run before p)) as H0. cbv zeta in H0.
  revert H0. generalize (handle (ModeClick replayMode) (run before p)).
  induction Hafter as [|m after Hm _ IH]; intros p0 H0; [exact H0|].
  cbn [run fold_left]. fold (run after (handle m p0)). apply IH.
  unfold visible, active in *.
  destruct (panel_click_keeps_mode m authFields p0 Hm) as [E1 Es]; [cbn; tauto|].
  destruct (panel_click_keeps_mode m replayFields p0 Hm) as [E2 _]; [cbn; tauto|].
  destruct (panel_click_keeps_mode m authBtn p0 Hm) as [E3 _]; [cbn; tauto|].
  destruct (panel_click_keeps_mode m replayBtn p0 Hm) as [E4 _]; [cbn; tauto|].
  destruct (panel_click_keeps_mode m modeAuthBtn p0 Hm) as [E5 _]; [cbn; tauto|].
  destruct (panel_click_keeps_mode m modeReplayBtn p0 Hm) as [E6 _]; [cbn; tauto|].
  now rewrite Es, E1, E2, E3, E4, E5, E6.
Qed.

(** Replay mode, back to authentication, then the bet panel. *)
Lemma mode_follows_last_click_witness :
  let p := {| classList := fun _ => ["hidden"]; isReplayModeSelected := true |} in
  let p' := run [ModeClick true; ModeClick false; BetClick] p in
  isReplayModeSelected p' = false /\
  visible authFields p' = true /\
  visible replayFields p' = false.
Proof.
  intros p p'.
  destruct (mode_follows_last_click [ModeClick true] [BetClick] false p)
    as (H1 & H2 & H3 & _).
  - repeat constructor. discriminate.
  - split; [exact H1|]. split; [exact H2|exact H3].
Defined.

End DemoPage.

(** ** Beyond the claims: one treatment of answers *)

(** X16.  [post] and [get] repeat the same lines; they do treat answers
    alike.  Two calls of any two operations whose requests meet the same
    outcome (the same rejection, or the same response) complete alike:
    with the same value or the same exception. *)
Theorem answers_treated_alike (c1 c2 : Call) (h1 h2 : Host) (l1 l2 : Log)
        (o1 o2 : FetcherOptions) :
  requests (snd (call c1 h1 l1)) = (requests l1 ++ [o1])%list ->
  requests (snd (call c2 h2 l2)) = (requests l2 ++ [o2])%list ->
  network h1 o1 = network h2 o2 ->
  fst (call c1 h1 l1) = fst (call c2 h2 l2).
Proof.
  intros H1 H2 Hnet.
  rewrite (call_answered c1 h1 l1 o1 H1), (call_answered c2 h2 l2 o2 H2).
  unfold answer. rewrite Hnet.
  destruct (network h2 o2) as [e|r]; [reflexivity|].
  destruct (status r =? 200)%N; [reflexivity|].
  unfold api_error. destruct (body r) as [[]|]; reflexivity.
Qed.

(** replay (a GET) and getBalance (a POST) under the same 404. *)
Lemma answers_treated_alike_witness :
  let h := {| search := [("sessionID", "s1"); ("rgs_url", "h")];
              network := fun _ => Fulfilled {| status := 404; statusText := "Not Found";
                                               body := Some (VObject []) |} |} in
  let o := {| replay_game := "g"; replay_version := "1"; replay_mode := "base";
              replay_event := "7"; replay_rgsUrl := None |} in
  fst (replay o h empty_log) = fst (getBalance None h empty_log).
Proof.
  intros h o.
  apply (answers_treated_alike (Replay o) (GetBalance None) h h empty_log empty_log
           {| method := GET; endpoint := "https://h/bet/replay/g/1/base/7";
              variables := None |}
           {| method := POST; endpoint := "https://h/wallet/balance";
              variables := Some (VObject [("sessionID", VString "s1")]) |});
    reflexivity.
Defined.
